(** * Voice-call orchestration core: the call server

    A shallow embedding of the call server (src/lib/call/call-server.ts):
    the session table, the set of control clients, the webhook handlers,
    the control-plane and media-plane message handlers, the preflight gate
    of [initiateCallInternal] and the broadcast to control clients.

    The server is an orchestrator: it owns two pieces of state (the session
    table and the control-client set) and otherwise calls out: to sockets,
    to HTTP responses, to the provider adapters and to the methods of the
    call sessions.  The embedding threads the server state through a small
    state-and-exception monad and records every outward call in a trace of
    effects, in program order. *)

From stdpp Require Import gmap strings list fin_maps.

Open Scope string_scope.
Open Scope list_scope.

(** ** Values that cross the boundary *)

(** [ws.readyState] of a WebSocket. *)
Inductive ReadyState := CONNECTING | OPEN | CLOSING | CLOSED.

Global Instance ReadyState_eq_dec : EqDecision ReadyState.
Proof. solve_decision. Defined.

(** A socket object; the set of control clients compares sockets by
    identity, which a number stands for. *)
Definition WebSocket := nat.

(** What a JavaScript [throw] carries: an [Error] with its message, or any
    other value ([err instanceof Error] tells them apart). *)
Inductive Thrown :=
| JsError (message : string)
| JsValue (repr : string).

(** [err instanceof Error ? err.message : fallback] *)
Definition messageOr (fallback : string) (err : Thrown) : string :=
  match err with
  | JsError m => m
  | JsValue _ => fallback
  end.

(** Messages the server sends on the control plane.  The server itself
    builds [call_started], [call_ringing] and [error]; whatever else a
    session publishes through its [message] event is forwarded as is. *)
Inductive ServerMessage :=
| call_started (callId callSid : string)
| call_ringing (callId : string)
| error_message (callId : option string) (message : string)
| session_message (payload : string).

(** A JSON value that is not a string (null, a boolean, a number, an array,
    an object), as far as the server can tell one from another: the value
    written out, its truthiness, and what [value.length > n] evaluates to
    for a number [n].  The server does nothing else with such a value but
    hand it on. *)
Record JsonOther := {
  json_text : string;
  json_truthy : bool;
  json_longer : nat → bool;
}.

(** The [context] of a call.  Its declared type is [string | undefined],
    but what arrives is client JSON that no [typeof] tests on its way to the
    session, so any JSON value can stand there: a string, or some other
    value.  Where a context is expected, [None] is [undefined]. *)
Inductive ContextValue :=
| ContextText (s : string)
| ContextOther (value : JsonOther).

(** Messages a control client sends; [other_message] is a well-formed JSON
    value whose [type] is none of the three the switch knows. *)
Inductive ClientMessage :=
| initiate_call (phoneNumber goal : string) (context : option ContextValue)
| speak (callId text : string)
| hangup (callId : string)
| other_message.

Record CallConfig := {
  deepgramApiKey : string;
  elevenLabsApiKey : string;
}.

Record CallServerOptions := {
  port : nat;
  publicUrl : string;
  config : CallConfig;
}.

(** The result of a preflight check. *)
Record PreflightResult := {
  ok : bool;
  message : string;
}.

(** The handle of a [CallSession] object as the server sees it: the
    arguments it was constructed with.  The session's own state lives
    behind its methods. *)
Record SessionHandle := {
  callId : string;
  phoneNumber : string;
  goal : string;
  context : option ContextValue;
}.

(** The methods of a session the server calls. *)
Inductive SessionCall :=
| updateStatus (status : string)
| sessionSpeak (text : string)
| sessionHangup
| initializeMediaStream (ws : WebSocket)
| setCallSid (callSid : string).

Inductive PreflightKind := TwilioCallSetup | DeepgramSTT | ElevenLabsTTSBudget.

(** Bodies of HTTP responses, before serialisation. *)
Inductive HttpBody :=
| ErrorBody (error : string)
| ReceivedBody
| TwimlBody (xml : string)
| HealthBody
| StatusBody (activeCalls controlClients : nat) (publicUrl : string).

(** Events on the server's own emitter. *)
Inductive ServerEvent :=
| ev_call_started (callId : string)
| ev_call_ended (callId : string)
| ev_error (err : Thrown).

Inductive LogLevel := LogInfo | LogWarn | LogError.

(** Every outward call of the server. *)
Inductive Effect :=
| Console (level : LogLevel) (text : string)
| Respond (status : nat) (contentType : string) (body : HttpBody)
| WsSend (ws : WebSocket) (msg : ServerMessage)
| WsClose (ws : WebSocket) (code : nat) (reason : string)
| RunPreflight (kind : PreflightKind)
| NewSession (s : SessionHandle)
| SessionInvoke (session : SessionHandle) (call : SessionCall)
| Originate (phoneNumber callId : string)
| Emit (ev : ServerEvent).

(** ** Server state *)

Record CallServer := {
  options : CallServerOptions;
  sessions : gmap string SessionHandle;
  controlClients : list WebSocket;
}.

Definition with_sessions (f : gmap string SessionHandle → gmap string SessionHandle)
  (st : CallServer) : CallServer :=
  {| options := options st; sessions := f (sessions st);
     controlClients := controlClients st |}.

Definition with_controlClients (f : list WebSocket → list WebSocket)
  (st : CallServer) : CallServer :=
  {| options := options st; sessions := sessions st;
     controlClients := f (controlClients st) |}.

(** [Set.prototype.add]: insertion order, no second copy. *)
Definition set_add (ws : WebSocket) (l : list WebSocket) : list WebSocket :=
  if decide (ws ∈ l) then l else l ++ [ws].

(** [Set.prototype.delete] *)
Definition set_delete (ws : WebSocket) (l : list WebSocket) : list WebSocket :=
  filter (λ c, c ≠ ws) l.

(** ** The monad: state, trace of effects, exceptions *)

Record Outcome (A : Type) := {
  val : Thrown + A;
  post : CallServer;
  eff : list Effect;
}.
Arguments val {A} _.
Arguments post {A} _.
Arguments eff {A} _.

Definition M (A : Type) : Type := CallServer → Outcome A.

Global Instance M_ret : MRet M :=
  λ A a st, {| val := inr a; post := st; eff := [] |}.

Global Instance M_bind : MBind M :=
  λ A B f m st,
    match m st with
    | {| val := inl e; post := st'; eff := t |} =>
        {| val := inl e; post := st'; eff := t |}
    | {| val := inr a; post := st'; eff := t |} =>
        match f a st' with
        | {| val := v; post := st''; eff := t' |} =>
            {| val := v; post := st''; eff := t ++ t' |}
        end
    end.

Definition throw {A} (e : Thrown) : M A :=
  λ st, {| val := inl e; post := st; eff := [] |}.

Definition try_catch {A} (m : M A) (handler : Thrown → M A) : M A :=
  λ st,
    match m st with
    | {| val := inl e; post := st'; eff := t |} =>
        match handler e st' with
        | {| val := v; post := st''; eff := t' |} =>
            {| val := v; post := st''; eff := t ++ t' |}
        end
    | r => r
    end.

Definition gets {A} (f : CallServer → A) : M A :=
  λ st, {| val := inr (f st); post := st; eff := [] |}.

Definition modify (f : CallServer → CallServer) : M unit :=
  λ st, {| val := inr (); post := f st; eff := [] |}.

Definition perform (e : Effect) : M unit :=
  λ st, {| val := inr (); post := st; eff := [e] |}.

(** [for (const x of xs) body(x)] *)
Fixpoint forEach {A} (body : A → M unit) (xs : list A) : M unit :=
  match xs with
  | [] => mret ()
  | x :: xs => body x ;; forEach body xs
  end.

(** JavaScript truthiness of a [string | undefined | null]. *)
Definition truthy (s : option string) : bool :=
  match s with
  | Some s => negb (String.eqb s "")
  | None => false
  end.

(** The value behind a truthiness test: [x ? f(x) : ...] reaches [f] only
    with a string that is present and not empty. *)
Definition whenTruthy (s : option string) : option string :=
  if truthy s then s else None.

(** Template-literal rendering of a possibly absent string. *)
Definition render (s : option string) : string :=
  match s with
  | Some s => s
  | None => "undefined"
  end.

(** ** The environment of one handler run

    The adapters under providers/ and the world outside the process: the
    pure helpers of the telephony adapter, the state of each socket, and
    what each awaited external call resolves to during this run.  A handler
    runs from its first statement to its last with its awaits resolved by
    the environment; what the event loop runs besides (another webhook, an
    event of a session, a frame on a socket) is a run of its own handler. *)

Class Env := {
  (* providers/twilio.ts *)
  formatPhoneNumber : string → string;
  generateErrorTwiml : string → string;
  generateMediaStreamsTwiml : CallConfig → string → string;
  parseWebhookBody : string → gmap string string;
  validateWebhookSignature :
    CallConfig → string → string → gmap string string → bool;
  preflightTwilioCallSetup : CallConfig → PreflightResult;
  initiateCall : CallConfig → string → string → Thrown + string;
  (* providers/deepgram.ts, providers/elevenlabs.ts *)
  preflightDeepgramSTT : string → PreflightResult;
  preflightElevenLabsTTSBudget :
    string → string → option ContextValue → PreflightResult;
  (* node:crypto *)
  randomUUID : string;
  (* ws *)
  readyState : WebSocket → ReadyState;
  (* what [await session.speak(text)] and [await session.hangup()] do:
     resolve ([None]) or reject *)
  speakOutcome : SessionHandle → string → option Thrown;
  hangupOutcome : SessionHandle → option Thrown;
}.

Section Server.
Context `{Env}.

Definition log (text : string) : M unit := perform (Console LogInfo text).
Definition warn (text : string) : M unit := perform (Console LogWarn text).
Definition error (text : string) : M unit := perform (Console LogError text).

(** [res.writeHead(status, {'Content-Type': ct}); res.end(body)] *)
Definition respond (status : nat) (ct : string) (body : HttpBody) : M unit :=
  perform (Respond status ct body).

(** Awaiting a session method that may reject. *)
Definition awaitSession (session : SessionHandle) (call : SessionCall)
  (outcome : option Thrown) : M unit :=
  perform (SessionInvoke session call) ;;
  match outcome with
  | Some e => throw e
  | None => mret ()
  end.

(** Broadcast message to all control clients *)
Definition broadcastToControl (msg : ServerMessage) : M unit :=
  clients ← gets controlClients;
  forEach (λ client,
    if decide (readyState client = OPEN) then perform (WsSend client msg)
    else mret ()) clients.

(** Health check endpoint *)
Definition handleHealthCheck : M unit :=
  respond 200 "application/json" HealthBody.

(** Server status endpoint *)
Definition handleStatusCheck : M unit :=
  st ← gets id;
  respond 200 "application/json"
    (StatusBody (size (sessions st)) (length (controlClients st))
       (publicUrl (options st))).

(** The two listeners [initiateCallInternal] puts on a new session. *)
Definition onSessionMessage (msg : ServerMessage) : M unit :=
  broadcastToControl msg.

Definition onSessionEnded (callId : string) : M unit :=
  modify (with_sessions (delete callId)) ;;
  perform (Emit (ev_call_ended callId)).

(** Internal method to initiate a call *)
Definition initiateCallInternal (phoneNumber goal : string)
  (context : option ContextValue) : M string :=
  opts ← gets options;
  (* Promise.all over the three preflight checks *)
  perform (RunPreflight TwilioCallSetup) ;;
  perform (RunPreflight DeepgramSTT) ;;
  perform (RunPreflight ElevenLabsTTSBudget) ;;
  let twilioPreflight := preflightTwilioCallSetup (config opts) in
  let deepgramPreflight := preflightDeepgramSTT (deepgramApiKey (config opts)) in
  let elevenLabsPreflight :=
    preflightElevenLabsTTSBudget (elevenLabsApiKey (config opts)) goal context in
  let failedPreflight :=
    find (λ result, negb (ok result))
      [twilioPreflight; deepgramPreflight; elevenLabsPreflight] in
  match failedPreflight with
  | Some failed => throw (JsError (message failed))
  | None =>
      log ("[Preflight] " +:+ message twilioPreflight) ;;
      log ("[Preflight] " +:+ message deepgramPreflight) ;;
      log ("[Preflight] " +:+ message elevenLabsPreflight) ;;
      let callId := randomUUID in
      let formattedNumber := formatPhoneNumber phoneNumber in
      (* Create session *)
      let session :=
        {| callId := callId; phoneNumber := formattedNumber;
           goal := goal; context := context |} in
      perform (NewSession session) ;;
      modify (with_sessions (insert callId session)) ;;
      (* Initiate call via Twilio *)
      perform (Originate formattedNumber callId) ;;
      match initiateCall (config opts) formattedNumber callId with
      | inr callSid =>
          perform (SessionInvoke session (setCallSid callSid)) ;;
          perform (Emit (ev_call_started callId)) ;;
          broadcastToControl (call_started callId callSid) ;;
          mret callId
      | inl err =>
          modify (with_sessions (delete callId)) ;;
          throw err
      end
  end.

(** *** Telephony webhooks *)

(** An inbound webhook once its body has been read (the [end] event of the
    request): [req.url], the [x-twilio-signature] header, the [callId]
    query parameter and the raw body. *)
Record WebhookRequest := {
  req_url : string;
  req_signature : option string;
  req_callId : option string;
  req_body : string;
}.

(** The guard both webhook handlers open with:
    [signature && !validateWebhookSignature(config, signature, url, params)] *)
Definition signatureRejected (opts : CallServerOptions) (req : WebhookRequest) : bool :=
  let webhookUrl := publicUrl opts +:+ req_url req in
  let params := parseWebhookBody (req_body req) in
  match req_signature req with
  | Some signature =>
      truthy (Some signature) &&
      negb (validateWebhookSignature (config opts) signature webhookUrl params)
  | None => false
  end.

(** Twilio voice webhook - returns TwiML for Media Streams *)
Definition handleTwilioVoice (req : WebhookRequest) : M unit :=
  opts ← gets options;
  if signatureRejected opts req then
    warn "[Twilio] Invalid webhook signature" ;;
    respond 403 "application/json" (ErrorBody "Invalid signature")
  else
    let callId := req_callId req in
    table ← gets sessions;
    match whenTruthy callId with
    | Some callId =>
        if bool_decide (is_Some (table !! callId)) then
          respond 200 "application/xml"
            (TwimlBody (generateMediaStreamsTwiml (config opts) callId))
        else
          respond 200 "application/xml"
            (TwimlBody (generateErrorTwiml
               "Sorry, this call cannot be connected. Please try again later."))
    | None =>
        respond 200 "application/xml"
          (TwimlBody (generateErrorTwiml
             "Sorry, this call cannot be connected. Please try again later."))
    end.

(** The [switch (webhook.CallStatus)] of the status callback. *)
Definition applyCallStatus (session : SessionHandle) (status : option string) : M unit :=
  match status with
  | Some status =>
      if String.eqb status "ringing" then
        perform (SessionInvoke session (updateStatus "ringing")) ;;
        broadcastToControl (call_ringing (callId session))
      else if String.eqb status "in-progress" then
        (* Status is set when media stream connects *)
        mret ()
      else if String.eqb status "completed" || String.eqb status "busy"
              || String.eqb status "failed" || String.eqb status "no-answer" then
        perform (SessionInvoke session (updateStatus status))
      else mret ()
  | None => mret ()
  end.

(** Twilio status callback *)
Definition handleTwilioStatus (req : WebhookRequest) : M unit :=
  opts ← gets options;
  if signatureRejected opts req then
    warn "[Twilio] Invalid webhook signature" ;;
    respond 403 "application/json" (ErrorBody "Invalid signature")
  else
    let callId := req_callId req in
    let webhook := parseWebhookBody (req_body req) in
    session ← gets (λ st,
      match whenTruthy callId with
      | Some callId => sessions st !! callId
      | None => None
      end);
    match session with
    | Some session => applyCallStatus session (webhook !! "CallStatus")
    | None => mret ()
    end ;;
    respond 200 "application/json" ReceivedBody.

(** *** Control plane *)

(** Handle control WebSocket connection: the socket joins the set. *)
Definition handleControlConnection (ws : WebSocket) : M unit :=
  log "[Control] Client connected" ;;
  modify (with_controlClients (set_add ws)).

Definition onControlClose (ws : WebSocket) : M unit :=
  log "[Control] Client disconnected" ;;
  modify (with_controlClients (set_delete ws)).

Definition onControlError (ws : WebSocket) : M unit :=
  error "[Control] Error:" ;;
  modify (with_controlClients (set_delete ws)).

(** Handle control messages from clients *)
Definition handleControlMessage (ws : WebSocket) (msg : ClientMessage) : M unit :=
  match msg with
  | initiate_call phoneNumber goal context =>
      initiateCallInternal phoneNumber goal context ;; mret ()
  | speak callId text =>
      session ← gets (λ st, sessions st !! callId);
      match session with
      | Some session =>
          awaitSession session (sessionSpeak text) (speakOutcome session text)
      | None =>
          perform (WsSend ws (error_message (Some callId) "Call not found"))
      end
  | hangup callId =>
      session ← gets (λ st, sessions st !! callId);
      match session with
      | Some session =>
          awaitSession session sessionHangup (hangupOutcome session)
      | None => mret ()
      end
  | other_message => mret ()
  end.

(** The [message] listener of a control socket; [data] is what
    [JSON.parse] made of the frame: the exception it threw, or the message. *)
Definition onControlMessage (ws : WebSocket) (data : Thrown + ClientMessage) : M unit :=
  try_catch
    (match data with
     | inl e => throw e
     | inr msg => handleControlMessage ws msg
     end)
    (λ err, perform (WsSend ws (error_message None (messageOr "Invalid message" err)))).

(** *** Media plane *)

(** A parsed media-plane frame: [msg.event] and
    [msg.start?.customParameters?.callId]. *)
Record MediaMessage := {
  event : option string;
  start_callId : option string;
}.

(** The [message] listener of a media socket.  [sessionInitialized] is the
    local flag of the connection; the listener returns its new value.  [data]
    is what [JSON.parse] made of the frame. *)
Definition onMediaMessage (ws : WebSocket) (sessionInitialized : bool)
  (data : Thrown + MediaMessage) : M bool :=
  try_catch
    (match data with
     | inl e => throw e
     | inr msg =>
         (* Handle the 'start' event to get callId from customParameters *)
         if bool_decide (event msg = Some "start") && negb sessionInitialized then
           let callId := start_callId msg in
           log ("[Media] Received start event, callId: " +:+ render callId) ;;
           match whenTruthy callId with
           | None =>
               error "[Media] No callId in start event customParameters" ;;
               perform (WsClose ws 1008 "Missing callId") ;;
               mret sessionInitialized
           | Some callId =>
               session ← gets (λ st, sessions st !! callId);
               match session with
               | None =>
                   error ("[Media] No session found for call " +:+ callId) ;;
                   perform (WsClose ws 1008 "Call not found") ;;
                   mret sessionInitialized
               | Some session =>
                   log "[Media] Found session, initializing media stream..." ;;
                   perform (SessionInvoke session (initializeMediaStream ws)) ;;
                   mret true
               end
           end
         else mret sessionInitialized
     end)
    (λ err, error "[Media] Error parsing message:" ;; mret sessionInitialized).

(** The listeners of an ['error'] event, called in the order of their
    registration until one throws. *)
Fixpoint callListeners (listeners : list (option Thrown)) : M unit :=
  match listeners with
  | [] => mret ()
  | None :: listeners => callListeners listeners
  | Some thrown :: _ => throw thrown
  end.

(** What the first listener that throws throws, if any does. *)
Fixpoint firstThrown (listeners : list (option Thrown)) : option Thrown :=
  match listeners with
  | [] => None
  | None :: listeners => firstThrown listeners
  | Some thrown :: _ => Some thrown
  end.

(** [this.emit('error', e)] as the [EventEmitter] the server extends does
    it.  The class registers no listener for ['error'] itself; [listeners]
    is what each listener the owner of the server has registered does when
    it is called ([None]: it returns, [Some t]: it throws [t]).  With no
    listener at all, [emit] throws the error it was given. *)
Definition emitError (listeners : list (option Thrown)) (e : Thrown) : M unit :=
  perform (Emit (ev_error e)) ;;
  match listeners with
  | [] => throw e
  | _ => callListeners listeners
  end.

(** The two continuations of [session.initializeMediaStream(ws, msg)]. *)
Definition onMediaInitialized : M unit :=
  log "[Media] Media stream initialized successfully".

Definition onMediaInitFailed (listeners : list (option Thrown)) (ws : WebSocket)
  (callId : string) (err : Thrown) : M unit :=
  error "[Media] Failed to initialize:" ;;
  (* Clean up session on initialization failure *)
  modify (with_sessions (delete callId)) ;;
  emitError listeners (match err with
                       | JsError _ => err
                       | JsValue v => JsError v
                       end) ;;
  perform (WsClose ws 1011 "Failed to initialize").

End Server.

(** ** The call session, from its specification *)

Module CallSession.

(** Modelled from the spec: the [CallSession] class (call-session.ts is not
    among the sources).  The state machine of section 4.3,
    [created → placing → ringing → connected → ended], and [hangup()]:
    "idempotent; if already ended, returns immediately; otherwise instructs
    the telephony adapter to terminate the provider call, tears down the
    bridge, and transitions to ended"; reaching [ended] "emits exactly one
    completion event carrying the final recorded state". *)
Inductive Status := created | placing | ringing | connected | ended.

Global Instance Status_eq_dec : EqDecision Status.
Proof. solve_decision. Defined.

(** What a session does to the outside, in order. *)
Inductive Action :=
| TerminateProviderCall (callSid : option string)
| TearDownBridge
| EmitEnded (final : Status).

Record t := {
  status : Status;
  callSid : option string;
  bridgeAttached : bool;
  history : list Action;
}.

(** Modelled from the spec: a session as the server constructs it. *)
Definition new : t :=
  {| status := created; callSid := None; bridgeAttached := false; history := [] |}.

(** Modelled from the spec: [hangup()] of the absent [CallSession] class. *)
Definition hangup (s : t) : t :=
  match status s with
  | ended => s
  | _ =>
      {| status := ended;
         callSid := callSid s;
         bridgeAttached := false;
         history := history s ++
           [TerminateProviderCall (callSid s); TearDownBridge; EmitEnded ended] |}
  end.

Definition isEnded (a : Action) : bool :=
  match a with
  | EmitEnded _ => true
  | _ => false
  end.

(** The number of [ended] events the session has emitted so far. *)
Definition endedEvents (s : t) : nat :=
  length (filter (λ a, isEnded a = true) (history s)).

(** Modelled from the spec: reaching [ended] by a status of the provider,
    the call being over on its side: "reaching ended always (a) tears down
    the audio bridge [...], (c) emits exactly one completion event carrying
    the final recorded state". *)
Definition finish (s : t) : t :=
  {| status := ended;
     callSid := callSid s;
     bridgeAttached := false;
     history := history s ++ [TearDownBridge; EmitEnded ended] |}.

(** Modelled from the spec: [updateStatus(status)] of the absent
    [CallSession] class, which "applies a telephony status-webhook value to
    the state machine, ignoring status values that do not represent a valid
    transition from the current state (e.g., a stale ringing received after
    connected must not regress state)".  The transitions a telephony value
    stands for are those of section 4.3: [ringing], from [created] or
    [placing]; the failure path "created|placing|ringing →
    ended(failed|busy|no-answer)"; and [completed], a "terminal status
    webhook", from every state but [ended], which no transition leaves.  No
    telephony value stands for [connected]: that is "set when the
    media-plane audio bridge actually attaches (not merely when the
    telephony layer reports in progress)". *)
Definition updateStatus (value : string) (s : t) : t :=
  if String.eqb value "ringing" then
    match status s with
    | created | placing =>
        {| status := ringing; callSid := callSid s;
           bridgeAttached := bridgeAttached s; history := history s |}
    | _ => s
    end
  else if String.eqb value "completed" then
    match status s with
    | ended => s
    | _ => finish s
    end
  else if String.eqb value "busy" || String.eqb value "failed"
          || String.eqb value "no-answer" then
    match status s with
    | created | placing | ringing => finish s
    | _ => s
    end
  else s.

(** Modelled from the spec: [initializeMediaStream(connection,
    startupPayload)] of the absent [CallSession] class, which "attaches the
    media-plane connection, begins the audio bridge [...]. Fails if called
    more than once or after the session has ended"; with the bridge
    attached the session is [connected].  [None] is the failure. *)
Definition initializeMediaStream (s : t) : option t :=
  if bridgeAttached s || bool_decide (status s = ended) then None
  else Some {| status := connected; callSid := callSid s;
               bridgeAttached := true; history := history s |}.

(** Modelled from the spec: [setCallSid(reference)] of the absent
    [CallSession] class, which "records the provider call reference once
    known". *)
Definition setCallSid (reference : string) (s : t) : t :=
  {| status := status s;
     callSid := Some reference;
     bridgeAttached := bridgeAttached s;
     history := history s |}.

End CallSession.

(** A method call of the server, applied to the record of the session it is
    made on.  [speak] plays audio and leaves the record alone, and so does
    an [initializeMediaStream] that fails. *)
Definition invoke (call : SessionCall) (s : CallSession.t) : CallSession.t :=
  match call with
  | updateStatus status => CallSession.updateStatus status s
  | sessionSpeak _ => s
  | sessionHangup => CallSession.hangup s
  | initializeMediaStream _ => default s (CallSession.initializeMediaStream s)
  | setCallSid callSid => CallSession.setCallSid callSid s
  end.

(** The session methods a trace calls, in order. *)
Definition sessionCalls (effs : list Effect) : list SessionCall :=
  omap (λ e, match e with
             | SessionInvoke _ call => Some call
             | _ => None
             end) effs.

(** A session after a sequence of method calls. *)
Definition invokeAll (calls : list SessionCall) (s : CallSession.t) : CallSession.t :=
  foldl (λ s call, invoke call s) s calls.

(** ** Observations and runs *)

(** The three preflight calls of [initiateCallInternal], as they appear in
    a trace. *)
Definition preflightCalls : list Effect :=
  [RunPreflight TwilioCallSetup; RunPreflight DeepgramSTT;
   RunPreflight ElevenLabsTTSBudget].

Definition isOpen `{Env} (client : WebSocket) : Prop := readyState client = OPEN.

Global Instance isOpen_dec `{Env} client : Decision (isOpen client) :=
  decide (readyState client = OPEN).

(** What one client observes on its socket, in order. *)
Definition received (client : WebSocket) (effs : list Effect) : list ServerMessage :=
  omap (λ e, match e with
             | WsSend ws msg => if decide (ws = client) then Some msg else None
             | _ => None
             end) effs.

(** The three preflight results of one [initiateCallInternal] run, in the
    order the code lists them. *)
Definition preflights `{Env} (st : CallServer) (goal : string)
  (context : option ContextValue) : list PreflightResult :=
  [preflightTwilioCallSetup (config (options st));
   preflightDeepgramSTT (deepgramApiKey (config (options st)));
   preflightElevenLabsTTSBudget (elevenLabsApiKey (config (options st))) goal context].

(** The session [initiateCallInternal] constructs. *)
Definition newSession `{Env} (phoneNumber goal : string)
  (context : option ContextValue) : SessionHandle :=
  {| callId := randomUUID; phoneNumber := formatPhoneNumber phoneNumber;
     goal := goal; context := context |}.

(** Events emitted one after the other, each under the environment of its
    moment; the trace of all the broadcasts. *)
Fixpoint deliver (events : list (Env * ServerMessage)) (st : CallServer)
  : list Effect :=
  match events with
  | [] => []
  | (env, msg) :: events =>
      let r := @onSessionMessage env msg st in
      eff r ++ deliver events (post r)
  end.

Definition rejection : list Effect :=
  [Console LogWarn "[Twilio] Invalid webhook signature";
   Respond 403 "application/json" (ErrorBody "Invalid signature")].

(** The telephony statuses the status callback hands on to a session. *)
Definition forwardedStatuses : list string :=
  ["ringing"; "completed"; "busy"; "failed"; "no-answer"].

(** The session the status callback resolves its [callId] parameter to. *)
Definition resolved (req : WebhookRequest) (st : CallServer) : option SessionHandle :=
  match whenTruthy (req_callId req) with
  | Some callId => sessions st !! callId
  | None => None
  end.

(** The status codes the trace closes sockets with. *)
Definition closeCodes (effs : list Effect) : list nat :=
  omap (λ e, match e with
             | WsClose _ code _ => Some code
             | _ => None
             end) effs.

(** A [start] frame carrying the given call identifier. *)
Definition startFrame (callId : option string) : Thrown + MediaMessage :=
  inr {| event := Some "start"; start_callId := callId |}.

(** One media connection: the frames it receives, each handled in the
    server state of its moment, with the connection's [sessionInitialized]
    flag carried from frame to frame. *)
Fixpoint mediaConnection (ws : WebSocket) (sessionInitialized : bool)
  (frames : list (CallServer * (Thrown + MediaMessage))) : list Effect :=
  match frames with
  | [] => []
  | (st, data) :: frames =>
      let r := onMediaMessage ws sessionInitialized data st in
      eff r ++
      mediaConnection ws
        (match val r with
         | inr flag => flag
         | inl _ => sessionInitialized
         end) frames
  end.

Definition isInitialize (e : Effect) : bool :=
  match e with
  | SessionInvoke _ (initializeMediaStream _) => true
  | _ => false
  end.

(** How many times the trace hands a socket to a session's media bridge. *)
Definition initializations (effs : list Effect) : nat :=
  length (filter (λ e, isInitialize e = true) effs).

(** ** A concrete deployment, for evaluation *)

Module Demo.

(** A webhook body parser for bodies of the single form [CallStatus=<value>]. *)
Definition parseBody (body : string) : gmap string string :=
  if String.prefix "CallStatus=" body
  then {[ "CallStatus" := String.substring 11 (String.length body - 11) body ]}
  else ∅.

Definition passed (what : string) : PreflightResult :=
  {| ok := true; message := what +:+ " preflight passed" |}.

Definition failed (what : string) : PreflightResult :=
  {| ok := false; message := what +:+ " preflight failed" |}.

(** An environment given by: whether the provider's validator accepts the
    signatures it is shown, the three preflight results, the result of the
    origination request and the state of each socket. *)
Definition env (validates : bool) (twilio deepgram elevenLabs : PreflightResult)
  (origination : Thrown + string) (state : WebSocket → ReadyState) : Env :=
  {| formatPhoneNumber := λ n, "+" +:+ n;
     generateErrorTwiml := λ text, "<Say>" +:+ text +:+ "</Say>";
     generateMediaStreamsTwiml := λ _ callId, "<Stream>" +:+ callId +:+ "</Stream>";
     parseWebhookBody := parseBody;
     validateWebhookSignature := λ _ _ _ _, validates;
     preflightTwilioCallSetup := λ _, twilio;
     initiateCall := λ _ _ _, origination;
     preflightDeepgramSTT := λ _, deepgram;
     preflightElevenLabsTTSBudget := λ _ _ _, elevenLabs;
     randomUUID := "call-2";
     readyState := state;
     speakOutcome := λ _ _, None;
     hangupOutcome := λ _, None |}.

Definition allOpen : WebSocket → ReadyState := λ _, OPEN.

(** Socket 2 is closing, every other socket is open. *)
Definition twoClosing : WebSocket → ReadyState :=
  λ ws, if decide (ws = 2) then CLOSING else OPEN.

Definition healthy : Env :=
  env true (passed "twilio") (passed "deepgram") (passed "elevenlabs")
    (inr "CA123") allOpen.

Definition opts : CallServerOptions :=
  {| port := 3000; publicUrl := "https://calls.example";
     config := {| deepgramApiKey := "dg"; elevenLabsApiKey := "el" |} |}.

Definition session1 : SessionHandle :=
  {| callId := "call-1"; phoneNumber := "+15551234567";
     goal := "ask about checkout time"; context := None |}.

(** One live call, two control clients (sockets 1 and 2). *)
Definition server : CallServer :=
  {| options := opts;
     sessions := {[ "call-1" := session1 ]};
     controlClients := [1; 2] |}.

End Demo.

(** A status callback for the live call of the demo server. *)
Definition ringingCallback (signature : option string) : WebhookRequest :=
  {| req_url := "/twilio/status?callId=call-1";
     req_signature := signature;
     req_callId := Some "call-1";
     req_body := "CallStatus=ringing" |}.

(** An environment whose validator accepts no signature at all. *)
Definition strictEnv : Env :=
  Demo.env false (Demo.passed "twilio") (Demo.passed "deepgram")
    (Demo.passed "elevenlabs") (inr "CA123") Demo.allOpen.

From stdpp Require Import pretty.

(** ** The HTTP front

    The request listener of the server, [handleHttpRequest], and the
    handlers it routes to that are not modelled above.  The front writes
    what the handlers above cannot: response headers, a response without a
    body, the two success bodies of /call and /status/:callId, and the
    destruction of an oversized request.  A front handler is a function of
    the server state that gives the new state and its trace; the trace of a
    handler from above appears in it under [Core].  The request listener
    itself can also end by an exception, before it has written anything.

    Lengths: [String.length] counts the characters of the model, which
    stand for the UTF-16 code units of a string where the source takes
    [s.length], and for the bytes of a Buffer where it takes
    [chunk.length]; on ASCII text the two agree. *)

(** Maximum request body size (1MB) *)
Definition MAX_BODY_SIZE : N := 1024 * 1024.
(** Maximum lengths for call request fields *)
Definition MAX_PHONE_LENGTH : nat := 20.
Definition MAX_GOAL_LENGTH : nat := 1000.
Definition MAX_CONTEXT_LENGTH : nat := 5000.

Inductive FrontBody :=
| NoBody
| SessionStateBody (session : SessionHandle)
| InitiatingBody (callId : string).

Inductive FrontEffect :=
| Core (e : Effect)
| SetHeader (name value : string)
| RespondWith (status : nat) (contentType : option string) (body : FrontBody)
| DestroyRequest.

Definition Front : Type := CallServer → CallServer * list FrontEffect.

(** A handler from above, run to its end inside the front. *)
Definition lift {A} (m : M A) : Front :=
  λ st, let r := m st in (post r, Core <$> eff r).

(** [res.writeHead(status, {'Content-Type': 'application/json'});
     res.end(JSON.stringify({ error }))] *)
Definition respondError (status : nat) (error : string) : Front :=
  λ st, (st, [Core (Respond status "application/json" (ErrorBody error))]).

(** The [data] listener the three POST handlers share: the chunks are
    appended while their sizes add up to at most [MAX_BODY_SIZE]; the chunk
    that takes the sum over it ends the reading. *)
Fixpoint readBody (chunks : list string) (body : string) (bodySize : N)
  : option string :=
  match chunks with
  | [] => Some body
  | chunk :: chunks =>
      let bodySize := (bodySize + N.of_nat (String.length chunk))%N in
      if (MAX_BODY_SIZE <? bodySize)%N then None
      else readBody chunks (body +:+ chunk) bodySize
  end.

(** The chunks of a body, put together. *)
Definition wholeBody (chunks : list string) : string :=
  foldr String.append "" chunks.

(** A POST handler: its [data] listener, then its [end] listener on the
    body read. *)
Definition receiveBody (chunks : list string) (onEnd : string → Front) : Front :=
  match readBody chunks "" 0 with
  | Some body => onEnd body
  | None =>
      λ st, (st, [Core (Respond 413 "application/json"
                          (ErrorBody "Request body too large"));
                  DestroyRequest])
  end.

(** [String.prototype.toLowerCase], on the letters A to Z: the part of it
    that a search for a word of ASCII letters can tell. *)
Definition lowerAscii (c : Ascii.ascii) : Ascii.ascii :=
  let n := Ascii.nat_of_ascii c in
  if (65 <=? n)%nat && (n <=? 90)%nat then Ascii.ascii_of_nat (n + 32) else c.

Fixpoint toLowerCase (s : string) : string :=
  match s with
  | EmptyString => EmptyString
  | String c s => String (lowerAscii c) (toLowerCase s)
  end.

(** [String.prototype.includes] *)
Fixpoint includes (needle hay : string) : bool :=
  String.prefix needle hay ||
  match hay with
  | EmptyString => false
  | String _ hay => includes needle hay
  end.

(** A field of the parsed body of POST /call: absent, a value that is not
    a string, or a string. *)
Inductive JsonField :=
| Missing
| NotAString
| Text (s : string).

(** The parsed body of POST /call.  The three fields are whatever the
    client sent: the handler tests [phoneNumber] and [goal] with [typeof],
    and [context] not at all. *)
Record CallRequestBody := {
  body_phoneNumber : JsonField;
  body_goal : JsonField;
  body_context : option ContextValue;
}.

(** JavaScript truthiness of a context. *)
Definition contextTruthy (context : option ContextValue) : bool :=
  match context with
  | Some (ContextText s) => truthy (Some s)
  | Some (ContextOther value) => json_truthy value
  | None => false
  end.

(** [context.length > bound], on a context that is there. *)
Definition contextLonger (context : ContextValue) (bound : nat) : bool :=
  match context with
  | ContextText s => (bound <? String.length s)%nat
  | ContextOther value => json_longer value bound
  end.

(** [context && context.length > bound] *)
Definition contextTooLong (context : option ContextValue) (bound : nat) : bool :=
  match context with
  | Some value => contextTruthy context && contextLonger value bound
  | None => false
  end.

(** [!x || typeof x !== 'string'] fails: the string that is there. *)
Definition requiredText (x : JsonField) : option string :=
  match x with
  | Text s => whenTruthy (Some s)
  | _ => None
  end.

(** A parsed request target, as far as the handlers read it:
    [url.pathname] and [url.searchParams.get('callId')]. *)
Record Url := {
  url_pathname : string;
  url_callId : option string;
}.

(** An inbound HTTP request: [req.method], [req.url], what
    [new URL(req.url ?? '/', `http://${req.headers.host}`)] makes of the
    request target and the Host header (the [TypeError] it throws, for a
    target such as [//], or the URL), the [x-twilio-signature] header and
    the chunks of the body as they arrive. *)
Record HttpRequest := {
  http_method : option string;
  http_url : string;
  http_location : Thrown + Url;
  http_signature : option string;
  http_chunks : list string;
}.

(** The character [/]. *)
Definition slash : Ascii.ascii := Ascii.ascii_of_nat 47.

(** [pathname.split('/').pop()]: what follows the last slash. *)
Fixpoint lastSegment (pathname : string) (segment : string) : string :=
  match pathname with
  | EmptyString => segment
  | String c pathname =>
      if Ascii.eqb c slash then lastSegment pathname ""
      else lastSegment pathname (segment +:+ String c EmptyString)
  end.

Definition corsHeaders : list FrontEffect :=
  [SetHeader "Access-Control-Allow-Origin" "*";
   SetHeader "Access-Control-Allow-Methods" "GET, POST, OPTIONS";
   SetHeader "Access-Control-Allow-Headers" "Content-Type"].

Section Front.
Context `{Env}.
(** [JSON.parse] on the body of POST /call, with the reading of its fields:
    the exception thrown, or the fields. *)
Variable parseCallRequest : string → Thrown + CallRequestBody.

(** Call status endpoint *)
Definition handleCallStatusCheck (callId : string) : Front :=
  λ st,
    match sessions st !! callId with
    | Some session =>
        (st, [RespondWith 200 (Some "application/json") (SessionStateBody session)])
    | None => respondError 404 "Call not found" st
    end.

(** The [catch] of [handleCallRequest]. *)
Definition callRequestFailed (err : Thrown) : Front :=
  let message := messageOr "Internal server error" err in
  let statusCode := if includes "preflight" (toLowerCase message) then 400 else 500 in
  respondError statusCode message.

(** Initiate a new call via HTTP: the [end] listener. *)
Definition handleCallRequestEnd (body : string) : Front :=
  match parseCallRequest body with
  | inl err => callRequestFailed err
  | inr data =>
      (* Input validation *)
      match requiredText (body_phoneNumber data) with
      | None => respondError 400 "phoneNumber is required"
      | Some phoneNumber =>
          match requiredText (body_goal data) with
          | None => respondError 400 "goal is required"
          | Some goal =>
              if (MAX_PHONE_LENGTH <? String.length phoneNumber)%nat then
                respondError 400 "phoneNumber too long"
              else if (MAX_GOAL_LENGTH <? String.length goal)%nat then
                respondError 400 "goal too long"
              else if contextTooLong (body_context data) MAX_CONTEXT_LENGTH then
                respondError 400 "context too long"
              else
                λ st,
                  let r := initiateCallInternal phoneNumber goal (body_context data) st in
                  match val r with
                  | inr callId =>
                      (post r,
                       (Core <$> eff r) ++
                       [RespondWith 200 (Some "application/json") (InitiatingBody callId)])
                  | inl err =>
                      let (st', out) := callRequestFailed err (post r) in
                      (st', (Core <$> eff r) ++ out)
                  end
          end
      end
  end.

(** Initiate a new call via HTTP *)
Definition handleCallRequest (req : HttpRequest) : Front :=
  receiveBody (http_chunks req) handleCallRequestEnd.

Definition webhookRequest (req : HttpRequest) (url : Url) (body : string)
  : WebhookRequest :=
  {| req_url := http_url req;
     req_signature := http_signature req;
     req_callId := url_callId url;
     req_body := body |}.

(** Handle HTTP requests.  The first statement parses the request target;
    when [new URL] throws, the handler ends there, by that exception: no
    header is set, nothing is written to the response, the server state is
    as it was. *)
Definition handleHttpRequest (req : HttpRequest) (st : CallServer)
  : Thrown + CallServer * list FrontEffect :=
  match http_location req with
  | inl err => inl err
  | inr url =>
      let method := default "GET" (http_method req) in
      let pathname := url_pathname url in
      inr
        (if String.eqb method "OPTIONS" then
           (st, corsHeaders ++ [RespondWith 204 None NoBody])
         else
           let (st', out) :=
             (* Route requests *)
             if String.eqb method "GET" && String.eqb pathname "/health" then
               lift handleHealthCheck st
             else if String.eqb method "GET" && String.eqb pathname "/status" then
               lift handleStatusCheck st
             else if String.eqb method "POST" && String.eqb pathname "/call" then
               handleCallRequest req st
             else if String.eqb method "POST"
                     && String.eqb pathname "/twilio/voice" then
               receiveBody (http_chunks req)
                 (λ body, lift (handleTwilioVoice (webhookRequest req url body))) st
             else if String.eqb method "POST"
                     && String.eqb pathname "/twilio/status" then
               receiveBody (http_chunks req)
                 (λ body, lift (handleTwilioStatus (webhookRequest req url body))) st
             else if String.eqb method "GET" && String.prefix "/status/" pathname then
               handleCallStatusCheck (lastSegment pathname "") st
             else
               respondError 404 "Not found" st
           in (st', corsHeaders ++ out))
  end.

End Front.

(** A POST /call request that passes every check of the handler: a body
    within the limit that parses to a non-empty [phoneNumber] and [goal]
    within their bounds and a [context] the length check lets through: a
    string within its bound, or another value that is falsy or whose
    [length] is not found greater than the bound. *)
Definition wellFormedCall (parseCallRequest : string → Thrown + CallRequestBody)
  (req : HttpRequest) (phoneNumber goal : string) (context : option ContextValue)
  : Prop :=
  (N.of_nat (String.length (wholeBody (http_chunks req))) ≤ 1048576)%N
  ∧ parseCallRequest (wholeBody (http_chunks req))
    = inr {| body_phoneNumber := Text phoneNumber; body_goal := Text goal;
             body_context := context |}
  ∧ phoneNumber ≠ "" ∧ goal ≠ ""
  ∧ (String.length phoneNumber ≤ 20)%nat
  ∧ (String.length goal ≤ 1000)%nat
  ∧ (∀ c, context = Some (ContextText c) → (String.length c ≤ 5000)%nat)
  ∧ (∀ value, context = Some (ContextOther value) →
       json_truthy value = true → json_longer value 5000 = false).

(** The status codes of the responses in a trace, in order. *)
Definition statusCodes (out : list FrontEffect) : list nat :=
  omap (λ e, match e with
             | Core (Respond status _ _) => Some status
             | RespondWith status _ _ => Some status
             | _ => None
             end) out.

(** The status codes of the responses of a trace of the handlers above. *)
Definition coreStatusCodes (effs : list Effect) : list nat :=
  omap (λ e, match e with
             | Respond status _ _ => Some status
             | _ => None
             end) effs.

(** What the front trace holds of the handlers above. *)
Definition coreEffects (out : list FrontEffect) : list Effect :=
  omap (λ e, match e with
             | Core e => Some e
             | _ => None
             end) out.

(** ** A concrete client, for evaluation *)

Module DemoHttp.

(** A string of [n] characters. *)
Fixpoint filler (n : nat) : string :=
  match n with
  | O => ""
  | S n => String (Ascii.ascii_of_nat 120) (filler n)
  end.

(** What [JSON.parse] makes of the bodies of the demo client, whose
    documents carry one fixed phone number and the body text as the goal. *)
Definition parse (body : string) : Thrown + CallRequestBody :=
  inr {| body_phoneNumber := Text "15551234567";
         body_goal := Text body;
         body_context := None |}.

(** The number 7 as a context: truthy, and without a [length], so that
    [(7).length > n] holds for no [n]. *)
Definition seven : JsonOther :=
  {| json_text := "7"; json_truthy := true; json_longer := λ _, false |}.

(** An array of [items] items as a context: truthy, and as long as it has
    items. *)
Definition arrayOf (items : nat) : JsonOther :=
  {| json_text := "[...]"; json_truthy := true;
     json_longer := λ bound, (bound <? items)%nat |}.

(** What [JSON.parse] makes of the bodies of a client that sends the same
    documents with a [context] that is not a string. *)
Definition parseWith (value : JsonOther) (body : string) : Thrown + CallRequestBody :=
  inr {| body_phoneNumber := Text "15551234567";
         body_goal := Text body;
         body_context := Some (ContextOther value) |}.

Definition request (method pathname : string) (chunks : list string) : HttpRequest :=
  {| http_method := Some method;
     http_url := pathname;
     http_location := inr {| url_pathname := pathname; url_callId := None |};
     http_signature := None;
     http_chunks := chunks |}.

(** A request whose target, [//], is no URL. *)
Definition unparsable (method : string) : HttpRequest :=
  {| http_method := Some method;
     http_url := "//";
     http_location := inl (JsError "Invalid URL");
     http_signature := None;
     http_chunks := [] |}.

(** POST /call with the goal sent in two chunks. *)
Definition call : HttpRequest :=
  request "POST" "/call" ["ask about "; "checkout time"].

End DemoHttp.

(** POST /call with a goal of 1001 characters. *)
Definition longGoalCall : HttpRequest :=
  DemoHttp.request "POST" "/call" [DemoHttp.filler 1001].

(** An environment whose transcription check fails. *)
Definition deepgramDown : Env :=
  Demo.env true (Demo.passed "twilio") (Demo.failed "deepgram")
    (Demo.passed "elevenlabs") (inr "CA123") Demo.allOpen.

(** ** The server over time *)

(** What can happen to the server, each with what the outside supplies. *)
Inductive Input :=
| HttpIn (parseCallRequest : string → Thrown + CallRequestBody) (req : HttpRequest)
| ControlConnect (ws : WebSocket)
| ControlClose (ws : WebSocket)
| ControlError (ws : WebSocket)
| ControlFrame (ws : WebSocket) (data : Thrown + ClientMessage)
| MediaFrame (ws : WebSocket) (sessionInitialized : bool) (data : Thrown + MediaMessage)
| MediaInitFailed (listeners : list (option Thrown)) (ws : WebSocket)
    (callId : string) (err : Thrown)
| SessionMessage (msg : ServerMessage)
| SessionEnded (callId : string).

(** The server state after one input. *)
Definition step `{Env} (input : Input) (st : CallServer) : CallServer :=
  match input with
  | HttpIn parseCallRequest req =>
      match handleHttpRequest parseCallRequest req st with
      | inr result => result.1
      | inl _ => st
      end
  | ControlConnect ws => post (handleControlConnection ws st)
  | ControlClose ws => post (onControlClose ws st)
  | ControlError ws => post (onControlError ws st)
  | ControlFrame ws data => post (onControlMessage ws data st)
  | MediaFrame ws flag data => post (onMediaMessage ws flag data st)
  | MediaInitFailed listeners ws callId err =>
      post (onMediaInitFailed listeners ws callId err st)
  | SessionMessage msg => post (onSessionMessage msg st)
  | SessionEnded callId => post (onSessionEnded callId st)
  end.

(** The server state after a sequence of inputs, each under the environment
    of its moment. *)
Fixpoint serverRun (inputs : list (Env * Input)) (st : CallServer) : CallServer :=
  match inputs with
  | [] => st
  | (env, input) :: inputs => serverRun inputs (@step env input st)
  end.

(** The server as its constructor leaves it. *)
Definition newServer (options : CallServerOptions) : CallServer :=
  {| options := options; sessions := ∅; controlClients := [] |}.

(** Every entry of the session table is filed under the call identifier of
    its own session, and the client set has no socket twice. *)
Definition consistent (st : CallServer) : Prop :=
  NoDup (controlClients st)
  ∧ ∀ key session, sessions st !! key = Some session → callId session = key.

(** How one input can change the server state. *)
Inductive changed (st : CallServer) : CallServer → Prop :=
| changed_not : changed st st
| changed_inserted session :
    changed st (with_sessions (insert (callId session) session) st)
| changed_deleted key : changed st (with_sessions (delete key) st)
| changed_joined ws : changed st (with_controlClients (set_add ws) st)
| changed_left ws : changed st (with_controlClients (set_delete ws) st).

(** ** Local dependency preflight checks (providers/local-deps.ts) *)

Module LocalDeps.

(** What [spawnSync] returns, as far as the checks read it: [result.error]
    with its [code] and [message], [result.status], and
    [result.stderr?.toString().trim()]. *)
Record SpawnError := {
  code : option string;
  errorMessage : string;
}.

Record SpawnResult := {
  error : option SpawnError;
  status : option Z;
  stderr : option string;
}.

(** [{ ok: boolean; reason?: string }] *)
Record Check := {
  check_ok : bool;
  reason : option string;
}.

Inductive Dependency := ffmpeg | ngrok.

Record LocalDependencyPreflightResult := {
  ok : bool;
  provider : string;
  dependency : Dependency;
  message : string;
}.

(** [spawnSync(command, args, { timeout, ... })] *)
Definition Spawn : Type := string → list string → Z → SpawnResult.

Definition checkCommand (spawnSync : Spawn) (command : string) (args : list string)
  : Check :=
  let result := spawnSync command args 4000%Z in
  match error result with
  | Some error =>
      if bool_decide (code error = Some "ENOENT")
      then {| check_ok := false; reason := Some "not_found" |}
      else {| check_ok := false; reason := Some (errorMessage error) |}
  | None =>
      match status result with
      | Some 0%Z => {| check_ok := true; reason := None |}
      | Some exit => {| check_ok := false; reason := Some ("exit_" +:+ pretty exit) |}
      | None => {| check_ok := false; reason := Some "unknown_failure" |}
      end
  end.

Definition decodeArgs : list string :=
  ["-hide_banner"; "-loglevel"; "error"; "-f"; "mp3"; "-i"; "pipe:0"; "-f"; "null"; "-"].

Definition checkFfmpegMp3Decode (spawnSync : Spawn) : Check :=
  let result := spawnSync "ffmpeg" decodeArgs 6000%Z in
  match error result with
  | Some error => {| check_ok := false; reason := Some (errorMessage error) |}
  | None =>
      match status result with
      | Some 0%Z => {| check_ok := true; reason := None |}
      | exit =>
          {| check_ok := false;
             reason := Some
               match whenTruthy (stderr result) with
               | Some stderr => String.substring 0 220 stderr
               | None => "exit_" +:+ from_option pretty "unknown" exit
               end |}
      end
  end.

(** Checks that ffmpeg is available for realtime MP3 -> µ-law conversion. *)
Definition preflightFfmpeg (spawnSync : Spawn) : LocalDependencyPreflightResult :=
  let check := checkCommand spawnSync "ffmpeg" ["-version"] in
  if check_ok check then
    let decodeCheck := checkFfmpegMp3Decode spawnSync in
    if negb (check_ok decodeCheck) then
      {| ok := false; provider := "local"; dependency := ffmpeg;
         message :=
           "Local preflight failed: ffmpeg is installed but cannot decode MP3 ("
           +:+ default "unknown reason" (reason decodeCheck)
           +:+ "). Install a full ffmpeg build with MP3 decode support and retry." |}
    else
      {| ok := true; provider := "local"; dependency := ffmpeg;
         message := "Local preflight passed: ffmpeg is available and MP3 decode works." |}
  else if bool_decide (reason check = Some "not_found") then
    {| ok := false; provider := "local"; dependency := ffmpeg;
       message := "Local preflight failed: ffmpeg is not installed or not in PATH. Install ffmpeg and retry." |}
  else
    {| ok := false; provider := "local"; dependency := ffmpeg;
       message := "Local preflight failed: ffmpeg check could not run ("
                  +:+ default "unknown error" (reason check) +:+ ")." |}.

(** Checks that ngrok is available (used by auto-infra call mode). *)
Definition preflightNgrok (spawnSync : Spawn) : LocalDependencyPreflightResult :=
  let check := checkCommand spawnSync "ngrok" ["version"] in
  if check_ok check then
    {| ok := true; provider := "local"; dependency := ngrok;
       message := "Local preflight passed: ngrok is available." |}
  else if bool_decide (reason check = Some "not_found") then
    {| ok := false; provider := "local"; dependency := ngrok;
       message := "Local preflight failed: ngrok is not installed or not in PATH. Install ngrok and retry." |}
  else
    {| ok := false; provider := "local"; dependency := ngrok;
       message := "Local preflight failed: ngrok check could not run ("
                  +:+ default "unknown error" (reason check) +:+ ")." |}.

(** A run of [spawnSync] that ended with exit status 0 and no error. *)
Definition succeeded (result : SpawnResult) : Prop :=
  error result = None ∧ status result = Some 0%Z.

(** The mocks of the test suite: every call exits with the given status;
    every call fails to start with the given error code. *)
Definition exits (exit : Z) : Spawn :=
  λ _ _ _, {| error := None; status := Some exit; stderr := Some "" |}.

Definition failsToStart (errorCode text : string) : Spawn :=
  λ _ _ _, {| error := Some {| code := Some errorCode; errorMessage := text |};
              status := None; stderr := None |}.

End LocalDeps.

(** ** Phone numbers found in pages (utils/contact-extractor.ts) *)

Module ContactExtractor.

(** [\d] *)
Definition isDigit (c : Ascii.ascii) : bool :=
  let n := Ascii.nat_of_ascii c in (48 <=? n)%nat && (n <=? 57)%nat.

(** [s.replace(/\D/g, '')] *)
Fixpoint digitsOf (s : string) : string :=
  match s with
  | EmptyString => EmptyString
  | String c s => if isDigit c then String c (digitsOf s) else digitsOf s
  end.

(** [s.slice(n)] *)
Fixpoint sliceFrom (n : nat) (s : string) : string :=
  match n, s with
  | S n, String _ s => sliceFrom n s
  | _, _ => s
  end.

Definition normalizePhone (phone : string) : string :=
  (* Remove all non-digit characters except leading + *)
  let hasPlus := String.prefix "+" phone || String.prefix "00" phone in
  let digits := digitsOf phone in
  (* Remove leading 00 and treat as + *)
  let cleanDigits := if String.prefix "00" digits then sliceFrom 2 digits else digits in
  if hasPlus then "+" +:+ cleanDigits else cleanDigits.

(** [/^(.)\1+$/.test(s)]: one character, two times or more. *)
Fixpoint allEqual (c : Ascii.ascii) (s : string) : bool :=
  match s with
  | EmptyString => true
  | String d s => Ascii.eqb c d && allEqual c s
  end.

Definition oneCharRepeated (s : string) : bool :=
  match s with
  | String c (String d rest) => Ascii.eqb c d && allEqual c rest
  | _ => false
  end.

Definition isLikelyNotPhone (phone : string) : bool :=
  let digits := digitsOf phone in
  (* All same digits *)
  if oneCharRepeated digits then true
  (* Sequential numbers *)
  else if includes digits "1234567890" || includes digits "0987654321" then true
  (* Common non-phone numbers (years, dimensions, etc.) *)
  else if (String.prefix "19" digits || String.prefix "20" digits)
          && (String.length digits =? 4)%nat then true
  else false.

(** A string of digits only. *)
Definition allDigits (s : string) : Prop := digitsOf s = s.

(** A character written [n] times. *)
Fixpoint repeated (c : Ascii.ascii) (n : nat) : string :=
  match n with
  | O => EmptyString
  | S n => String c (repeated c n)
  end.

End ContactExtractor.

(** * Properties *)

(** ** The monad and the loop *)

(** Case analysis on membership in an explicit trace. *)
Ltac trace_cases H :=
  repeat match type of H with
  | _ ∈ preflightCalls => unfold preflightCalls in H
  | _ ∈ _ :: _ => apply elem_of_cons in H as [H|H]; [try discriminate H|]
  | _ ∈ [] => by apply elem_of_nil in H
  | _ ∈ _ ++ _ => apply elem_of_app in H as [H|H]
  end.

Ltac run :=
  unfold mbind, M_bind, mret, M_ret, perform, gets, modify, throw, try_catch,
    log, warn, error, respond; cbn -[find].

Section Broadcast.
Context `{Env}.

Lemma forEach_send msg (clients : list WebSocket) st :
  forEach (λ client,
    if decide (readyState client = OPEN) then perform (WsSend client msg)
    else mret ()) clients st
  = {| val := inr (); post := st;
       eff := (λ client, WsSend client msg) <$> filter isOpen clients |}.
Proof.
  revert st. induction clients as [|client clients IH]; intros st; [done|].
  cbn [forEach]. unfold mbind, M_bind.
  rewrite filter_cons. unfold isOpen at 1.
  destruct (decide (readyState client = OPEN)); simpl; by rewrite IH.
Qed.

Lemma broadcastToControl_run msg st :
  broadcastToControl msg st
  = {| val := inr (); post := st;
       eff := (λ client, WsSend client msg) <$> filter isOpen (controlClients st) |}.
Proof.
  unfold broadcastToControl. unfold mbind at 1, M_bind, gets. simpl.
  by rewrite forEach_send.
Qed.

End Broadcast.

Lemma received_app client l1 l2 :
  received client (l1 ++ l2) = received client l1 ++ received client l2.
Proof. unfold received. apply omap_app. Qed.

Lemma received_sends_other client msg (clients : list WebSocket) :
  client ∉ clients →
  received client ((λ c, WsSend c msg) <$> clients) = [].
Proof.
  induction clients as [|c clients IH]; [done|].
  intros Hn. apply not_elem_of_cons in Hn as [Hne Hn].
  unfold received in *. simpl.
  destruct (decide (c = client)); [congruence|]. by apply IH.
Qed.

Lemma received_sends client msg (clients : list WebSocket) :
  NoDup clients → client ∈ clients →
  received client ((λ c, WsSend c msg) <$> clients) = [msg].
Proof.
  induction 1 as [|c clients Hnotin Hnd IH]; intros Hin.
  - by apply elem_of_nil in Hin.
  - unfold received in *. simpl. destruct (decide (c = client)) as [->|Hne].
    + f_equal. by apply received_sends_other.
    + apply elem_of_cons in Hin as [?|Hin]; [congruence|]. by apply IH.
Qed.

(** The client set stays duplicate-free: it is a JavaScript [Set]. *)
Lemma set_add_NoDup ws (l : list WebSocket) : NoDup l → NoDup (set_add ws l).
Proof.
  intros Hnd. unfold set_add. destruct (decide (ws ∈ l)); [done|].
  apply NoDup_app. split_and!; [done| |apply NoDup_singleton].
  intros x Hx Hx'. apply list_elem_of_singleton in Hx'. by subst.
Qed.

Lemma set_delete_NoDup ws (l : list WebSocket) : NoDup l → NoDup (set_delete ws l).
Proof. intros. by apply NoDup_filter. Qed.

Lemma handleControlConnection_NoDup ws st :
  NoDup (controlClients st) →
  NoDup (controlClients (post (handleControlConnection ws st))).
Proof. intros Hnd. unfold handleControlConnection. run. by apply set_add_NoDup. Qed.

Lemma onControlClose_NoDup ws st :
  NoDup (controlClients st) →
  NoDup (controlClients (post (onControlClose ws st))).
Proof. intros Hnd. unfold onControlClose. run. by apply set_delete_NoDup. Qed.

(** ** The preflight gate and origination *)

Section Initiate.
Context `{Env}.

Lemma initiateCallInternal_failed phoneNumber goal context st failed :
  find (λ result, negb (ok result)) (preflights st goal context) = Some failed →
  initiateCallInternal phoneNumber goal context st
  = {| val := inl (JsError (message failed)); post := st; eff := preflightCalls |}.
Proof.
  unfold preflights, initiateCallInternal. intros Hfind. run.
  rewrite Hfind. done.
Qed.

Lemma initiateCallInternal_passed phoneNumber goal context st :
  find (λ result, negb (ok result)) (preflights st goal context) = None →
  let session := newSession phoneNumber goal context in
  let opts := options st in
  let prelude :=
    preflightCalls ++
    [Console LogInfo ("[Preflight] " +:+ message (preflightTwilioCallSetup (config opts)));
     Console LogInfo ("[Preflight] " +:+ message (preflightDeepgramSTT (deepgramApiKey (config opts))));
     Console LogInfo ("[Preflight] " +:+
        message (preflightElevenLabsTTSBudget (elevenLabsApiKey (config opts)) goal context));
     NewSession session;
     Originate (formatPhoneNumber phoneNumber) randomUUID] in
  initiateCallInternal phoneNumber goal context st
  = match initiateCall (config opts) (formatPhoneNumber phoneNumber) randomUUID with
    | inr callSid =>
        {| val := inr randomUUID;
           post := with_sessions (insert randomUUID session) st;
           eff := prelude ++
             [SessionInvoke session (setCallSid callSid);
              Emit (ev_call_started randomUUID)] ++
             ((λ client, WsSend client (call_started randomUUID callSid))
                <$> filter isOpen (controlClients st)) |}
    | inl err =>
        {| val := inl err;
           post := with_sessions (delete randomUUID)
                     (with_sessions (insert randomUUID session) st);
           eff := prelude |}
    end.
Proof.
  unfold preflights, initiateCallInternal. intros Hfind. run.
  rewrite Hfind. cbn.
  destruct (initiateCall _ _ _) as [err|callSid]; cbn; [done|].
  rewrite broadcastToControl_run. cbn. by rewrite app_nil_r.
Qed.

Lemma find_failed_spec (results : list PreflightResult) :
  match find (λ result, negb (ok result)) results with
  | Some failed => failed ∈ results ∧ ok failed = false
  | None => Forall (λ result, ok result = true) results
  end.
Proof.
  induction results as [|r results IH]; simpl; [constructor|].
  destruct (ok r) eqn:Hr; simpl.
  - destruct (find _ results).
    + destruct IH. split; [by right|done].
    + by constructor.
  - split; [by left|done].
Qed.

Lemma find_failed_None (results : list PreflightResult) :
  Forall (λ result, ok result = true) results →
  find (λ result, negb (ok result)) results = None.
Proof.
  induction 1 as [|r results Hr _ IH]; [done|]. simpl. by rewrite Hr.
Qed.

End Initiate.

(** ** Claims about the broadcast *)

(** C10: in a broadcast of a server message, a control client of the
    connected-client set is sent the message if and only if the readyState of
    its socket is OPEN at that moment.  Every effect of the broadcast is such
    a send, so a socket that is connecting, closing or closed gets nothing,
    and the server state is left as it was: nothing is queued for later. *)
Theorem broadcastToControl_iff_open `{Env} (msg : ServerMessage)
  (st : CallServer) (client : WebSocket) :
  let r := broadcastToControl msg st in
  (WsSend client msg ∈ eff r ↔
     client ∈ controlClients st ∧ readyState client = OPEN)
  ∧ (∀ e, e ∈ eff r →
       ∃ c, e = WsSend c msg ∧ c ∈ controlClients st ∧ readyState c = OPEN)
  ∧ post r = st
  ∧ val r = inr ().
Proof.
  intros r. subst r. rewrite broadcastToControl_run. simpl.
  split_and!; [|  |done|done].
  - rewrite list_elem_of_fmap. split.
    + intros (c & Heq & Hin). injection Heq as ->.
      by apply list_elem_of_filter in Hin as [? ?].
    + intros [Hin Hopen]. exists client. split; [done|].
      by apply list_elem_of_filter.
  - intros e He. apply list_elem_of_fmap in He as (c & -> & Hin).
    apply list_elem_of_filter in Hin as [? ?]. by exists c.
Qed.

Example broadcast_skips_closing_socket :
  let env := Demo.env true (Demo.passed "twilio") (Demo.passed "deepgram")
               (Demo.passed "elevenlabs") (inr "CA123") Demo.twoClosing in
  @broadcastToControl env (call_ringing "call-1") Demo.server
  = {| val := inr (); post := Demo.server;
       eff := [WsSend 1 (call_ringing "call-1")] |}.
Proof. vm_compute. reflexivity. Qed.

Lemma received_broadcast `{Env} msg st client :
  NoDup (controlClients st) → client ∈ controlClients st →
  readyState client = OPEN →
  received client (eff (broadcastToControl msg st)) = [msg].
Proof.
  intros Hnd Hin Hopen. rewrite broadcastToControl_run. simpl.
  apply received_sends; [by apply NoDup_filter|by apply list_elem_of_filter].
Qed.

(** C9: every event is delivered exactly once to every connected control
    client, and each client sees the events in emission order.  For a client
    of the (duplicate-free) client set whose socket is open: a message a
    session publishes reaches it exactly once; a successful
    [initiateCallInternal] makes it observe [call_started] exactly once, and
    nothing else; and of a sequence of events it observes exactly that
    sequence, in that order. *)
Theorem broadcast_exactly_once_in_order `{Env} (st : CallServer) (client : WebSocket) :
  NoDup (controlClients st) →
  client ∈ controlClients st →
  readyState client = OPEN →
  (∀ msg, received client (eff (onSessionMessage msg st)) = [msg])
  ∧ (∀ phoneNumber goal context callSid,
       Forall (λ result, ok result = true) (preflights st goal context) →
       initiateCall (config (options st)) (formatPhoneNumber phoneNumber) randomUUID
         = inr callSid →
       let r := initiateCallInternal phoneNumber goal context st in
       val r = inr randomUUID
       ∧ received client (eff r) = [call_started randomUUID callSid])
  ∧ (∀ events : list (Env * ServerMessage),
       Forall (λ e, @readyState e.1 client = OPEN) events →
       received client (deliver events st) = events.*2).
Proof.
  intros Hnd Hin Hopen. split_and!.
  - intros msg. by apply received_broadcast.
  - intros phoneNumber goal context callSid Hok Horig r. subst r.
    pose proof (initiateCallInternal_passed phoneNumber goal context st
                  (find_failed_None _ Hok)) as Hrun.
    cbv zeta in Hrun. rewrite Hrun, Horig. clear Hrun. cbn [val eff].
    split; [done|].
    rewrite !received_app. cbn.
    apply received_sends; [by apply NoDup_filter|by apply list_elem_of_filter].
  - intros events. induction events as [|[env msg] events IH]; intros Hall; [done|].
    apply Forall_cons in Hall as [Hopen' Hall]. simpl in Hopen'.
    cbn [deliver]. rewrite received_app. unfold onSessionMessage.
    rewrite (@received_broadcast env); [|done..].
    rewrite broadcastToControl_run. simpl. f_equal. by apply IH.
Qed.

Lemma broadcast_exactly_once_in_order_witness :
  let r := @initiateCallInternal Demo.healthy
             "15551234567" "ask about checkout time" None Demo.server in
  (val r = inr "call-2" ∧ received 1 (eff r) = [call_started "call-2" "CA123"])
  ∧ (val r = inr "call-2" ∧ received 2 (eff r) = [call_started "call-2" "CA123"]).
Proof.
  assert (Hnd : NoDup (controlClients Demo.server)).
  { apply (bool_decide_unpack _). vm_compute. exact I. }
  split.
  - refine (proj1 (proj2 (@broadcast_exactly_once_in_order Demo.healthy
      Demo.server 1 Hnd _ _)) "15551234567" "ask about checkout time" None "CA123" _ _).
    + apply (bool_decide_unpack _). vm_compute. exact I.
    + reflexivity.
    + repeat constructor.
    + reflexivity.
  - refine (proj1 (proj2 (@broadcast_exactly_once_in_order Demo.healthy
      Demo.server 2 Hnd _ _)) "15551234567" "ask about checkout time" None "CA123" _ _).
    + apply (bool_decide_unpack _). vm_compute. exact I.
    + reflexivity.
    + repeat constructor.
    + reflexivity.
Defined.

(** ** Claims about the preflight gate *)

(** C2: the origination request is made only after all three preflight
    checks have come back ok: wherever [Originate] occurs in the trace of
    [initiateCallInternal], all three results are ok and the three preflight
    calls precede it.  If a check fails, the call throws the message of a
    failed check, the server state is what it was (no table entry, the same
    [activeCalls] in the answer of /status), and the trace holds the three
    preflight calls and nothing else: no session is constructed and no
    provider call is made. *)
Theorem initiateCallInternal_preflight_gate `{Env}
  (phoneNumber goal : string) (context : option ContextValue) (st : CallServer) :
  let r := initiateCallInternal phoneNumber goal context st in
  let results := preflights st goal context in
  (∀ number callId, Originate number callId ∈ eff r →
     Forall (λ result, ok result = true) results
     ∧ ∃ rest, eff r = preflightCalls ++ rest ∧ Originate number callId ∈ rest)
  ∧ (¬ Forall (λ result, ok result = true) results →
     (∃ failed, failed ∈ results ∧ ok failed = false
                ∧ val r = inl (JsError (message failed)))
     ∧ post r = st
     ∧ size (sessions (post r)) = size (sessions st)
     ∧ handleStatusCheck (post r) = handleStatusCheck st
     ∧ eff r = preflightCalls
     ∧ (∀ session, NewSession session ∉ eff r)
     ∧ (∀ number callId, Originate number callId ∉ eff r)).
Proof.
  intros r results. subst r results.
  pose proof (find_failed_spec (preflights st goal context)) as Hspec.
  destruct (find _ (preflights st goal context)) as [failed|] eqn:Hfind.
  - rewrite (initiateCallInternal_failed _ _ _ _ _ Hfind). simpl.
    destruct Hspec as [Hin Hok]. split.
    + intros number callId Hor. trace_cases Hor.
    + intros _. split_and!; try done.
      * by exists failed.
      * intros session Hs. trace_cases Hs.
      * intros number callId Hor. trace_cases Hor.
  - split; [|done].
    pose proof (initiateCallInternal_passed phoneNumber goal context st Hfind) as Hrun.
    cbv zeta in Hrun. rewrite Hrun. clear Hrun.
    intros number callId Hor. split; [done|].
    destruct (initiateCall _ _ _) as [err|callSid]; cbn [eff] in *.
    + eexists. split; [reflexivity|].
      apply elem_of_app in Hor as [Hor|Hor]; [trace_cases Hor|done].
    + rewrite <- app_assoc in Hor |- *. eexists. split; [reflexivity|].
      apply elem_of_app in Hor as [Hor|Hor]; [trace_cases Hor|done].
Qed.

(** C5: when the three checks pass and the origination request fails, the
    error is thrown on to the caller, the session that was created is no
    longer in the table (the table is the old one without that key), the
    client set is untouched, and the trace has no send to any control client
    and no event on the server's emitter: no [call_started], nothing else. *)
Theorem initiateCallInternal_origination_failure `{Env}
  (phoneNumber goal : string) (context : option ContextValue) (st : CallServer)
  (err : Thrown) :
  Forall (λ result, ok result = true) (preflights st goal context) →
  initiateCall (config (options st)) (formatPhoneNumber phoneNumber) randomUUID
    = inl err →
  let r := initiateCallInternal phoneNumber goal context st in
  NewSession (newSession phoneNumber goal context) ∈ eff r
  ∧ val r = inl err
  ∧ sessions (post r) !! randomUUID = None
  ∧ sessions (post r) = delete randomUUID (sessions st)
  ∧ controlClients (post r) = controlClients st
  ∧ (∀ ws msg, WsSend ws msg ∉ eff r)
  ∧ (∀ ev, Emit ev ∉ eff r).
Proof.
  intros Hok Horig r. subst r.
  pose proof (initiateCallInternal_passed phoneNumber goal context st
                (find_failed_None _ Hok)) as Hrun.
  cbv zeta in Hrun. rewrite Hrun, Horig. clear Hrun. cbn.
  split_and!; try done.
  - do 6 right. left.
  - by rewrite lookup_delete_eq.
  - by rewrite delete_insert_eq.
  - intros ws msg Hs. trace_cases Hs.
  - intros ev He. trace_cases He.
Qed.

Lemma initiateCallInternal_origination_failure_witness :
  let env := Demo.env true (Demo.passed "twilio") (Demo.passed "deepgram")
               (Demo.passed "elevenlabs") (inl (JsError "Twilio: 21211 invalid number"))
               Demo.allOpen in
  let r := @initiateCallInternal env "15551234567" "ask about checkout time"
             None Demo.server in
  NewSession (@newSession env "15551234567" "ask about checkout time" None) ∈ eff r
  ∧ val r = inl (JsError "Twilio: 21211 invalid number")
  ∧ sessions (post r) !! "call-2" = None
  ∧ sessions (post r) = delete "call-2" (sessions Demo.server)
  ∧ controlClients (post r) = controlClients Demo.server
  ∧ (∀ ws msg, WsSend ws msg ∉ eff r)
  ∧ (∀ ev, Emit ev ∉ eff r).
Proof.
  apply (@initiateCallInternal_origination_failure
           (Demo.env true (Demo.passed "twilio") (Demo.passed "deepgram")
              (Demo.passed "elevenlabs") (inl (JsError "Twilio: 21211 invalid number"))
              Demo.allOpen)
           "15551234567" "ask about checkout time" None Demo.server
           (JsError "Twilio: 21211 invalid number")).
  - repeat constructor.
  - reflexivity.
Defined.

Example preflight_failure_run :
  let env := Demo.env true (Demo.passed "twilio") (Demo.failed "deepgram")
               (Demo.failed "elevenlabs") (inr "CA123") Demo.allOpen in
  @initiateCallInternal env "15551234567" "ask about checkout time" None Demo.server
  = {| val := inl (JsError "deepgram preflight failed");
       post := Demo.server;
       eff := preflightCalls |}.
Proof. vm_compute. reflexivity. Qed.

(** ** Claims about the telephony webhooks *)

Section Webhooks.
Context `{Env}.

Lemma signatureRejected_signed opts req signature :
  req_signature req = Some signature →
  signature ≠ "" →
  validateWebhookSignature (config opts) signature
    (publicUrl opts +:+ req_url req) (parseWebhookBody (req_body req)) = false →
  signatureRejected opts req = true.
Proof.
  intros Hsig Hne Hinvalid. unfold signatureRejected. rewrite Hsig, Hinvalid.
  simpl. apply String.eqb_neq in Hne. by rewrite Hne.
Qed.

(** A request without the header never reaches the validator. *)
Lemma signatureRejected_unsigned opts req :
  req_signature req = None → signatureRejected opts req = false.
Proof. intros Hsig. unfold signatureRejected. by rewrite Hsig. Qed.

Lemma handleTwilioVoice_rejected req st :
  signatureRejected (options st) req = true →
  handleTwilioVoice req st = {| val := inr (); post := st; eff := rejection |}.
Proof. intros Hrej. unfold handleTwilioVoice. run. by rewrite Hrej. Qed.

Lemma handleTwilioStatus_rejected req st :
  signatureRejected (options st) req = true →
  handleTwilioStatus req st = {| val := inr (); post := st; eff := rejection |}.
Proof. intros Hrej. unfold handleTwilioStatus. run. by rewrite Hrej. Qed.

(** What the switch over [CallStatus] does, case by case. *)
Lemma applyCallStatus_run session status st :
  applyCallStatus session status st
  = {| val := inr (); post := st;
       eff :=
         match status with
         | Some status =>
             if String.eqb status "ringing" then
               SessionInvoke session (updateStatus "ringing")
               :: ((λ client, WsSend client (call_ringing (callId session)))
                     <$> filter isOpen (controlClients st))
             else if String.eqb status "in-progress" then []
             else if bool_decide (status ∈ forwardedStatuses)
                  then [SessionInvoke session (updateStatus status)]
             else []
         | None => []
         end |}.
Proof.
  unfold applyCallStatus. destruct status as [status|]; [|done].
  destruct (String.eqb status "ringing") eqn:Hringing.
  - run. by rewrite broadcastToControl_run.
  - destruct (String.eqb status "in-progress") eqn:Hprogress; [done|].
    unfold forwardedStatuses.
    destruct (String.eqb status "completed") eqn:H1;
      [apply String.eqb_eq in H1 as ->; done|].
    destruct (String.eqb status "busy") eqn:H2;
      [apply String.eqb_eq in H2 as ->; done|].
    destruct (String.eqb status "failed") eqn:H3;
      [apply String.eqb_eq in H3 as ->; done|].
    destruct (String.eqb status "no-answer") eqn:H4;
      [apply String.eqb_eq in H4 as ->; done|].
    apply String.eqb_neq in Hringing, H1, H2, H3, H4.
    rewrite bool_decide_eq_false_2; [done|].
    intros Hin. trace_cases Hin; congruence.
Qed.

Lemma handleTwilioStatus_accepted req st :
  signatureRejected (options st) req = false →
  handleTwilioStatus req st
  = {| val := inr (); post := st;
       eff :=
         match resolved req st with
         | Some session =>
             eff (applyCallStatus session
                    (parseWebhookBody (req_body req) !! "CallStatus") st)
         | None => []
         end ++ [Respond 200 "application/json" ReceivedBody] |}.
Proof.
  intros Hrej. unfold handleTwilioStatus, resolved.
  unfold mbind at 1, M_bind, gets at 1. cbn -[String.eqb]. rewrite Hrej.
  unfold mbind at 1, M_bind, gets at 1. cbn -[String.eqb].
  destruct (match whenTruthy (req_callId req) with Some c => _ | None => None end)
    as [session|].
  - unfold mbind, M_bind. rewrite applyCallStatus_run. done.
  - done.
Qed.

End Webhooks.

(** C1 (as the code has it): a webhook request that carries a non-empty
    signature header which the validator does not accept is rejected by
    both handlers: a warning is logged, the response is 403, the server
    state is unchanged, and no method of any session is called.  (A request
    with no signature header is not validated at all.) *)
Theorem webhook_invalid_signature_rejected `{Env}
  (req : WebhookRequest) (st : CallServer) (signature : string) :
  req_signature req = Some signature →
  signature ≠ "" →
  validateWebhookSignature (config (options st)) signature
    (publicUrl (options st) +:+ req_url req) (parseWebhookBody (req_body req))
    = false →
  handleTwilioVoice req st = {| val := inr (); post := st; eff := rejection |}
  ∧ handleTwilioStatus req st = {| val := inr (); post := st; eff := rejection |}
  ∧ (∀ session call, SessionInvoke session call ∉ rejection).
Proof.
  intros Hsig Hne Hinvalid.
  pose proof (signatureRejected_signed _ _ _ Hsig Hne Hinvalid) as Hrej.
  split_and!.
  - by apply handleTwilioVoice_rejected.
  - by apply handleTwilioStatus_rejected.
  - intros session call Hin. unfold rejection in Hin. trace_cases Hin.
Qed.

Lemma webhook_invalid_signature_rejected_witness :
  let req := ringingCallback (Some "forged") in
  @handleTwilioVoice strictEnv req Demo.server
    = {| val := inr (); post := Demo.server; eff := rejection |}
  ∧ @handleTwilioStatus strictEnv req Demo.server
    = {| val := inr (); post := Demo.server; eff := rejection |}
  ∧ (∀ session call, SessionInvoke session call ∉ rejection).
Proof.
  apply (@webhook_invalid_signature_rejected strictEnv
           (ringingCallback (Some "forged")) Demo.server "forged").
  - reflexivity.
  - discriminate.
  - reflexivity.
Defined.

(** C1 as stated fails: the same callback with no signature header, under
    a validator that accepts nothing, is not answered 403.  The handler
    calls [updateStatus] on the session, broadcasts [call_ringing] and
    answers 200; the voice webhook hands out the media-stream markup. *)
Lemma webhook_unsigned_not_rejected :
  let req := ringingCallback None in
  @handleTwilioStatus strictEnv req Demo.server
    = {| val := inr (); post := Demo.server;
         eff := [SessionInvoke Demo.session1 (updateStatus "ringing");
                 WsSend 1 (call_ringing "call-1");
                 WsSend 2 (call_ringing "call-1");
                 Respond 200 "application/json" ReceivedBody] |}
  ∧ @handleTwilioVoice strictEnv req Demo.server
    = {| val := inr (); post := Demo.server;
         eff := [Respond 200 "application/xml"
                   (TwimlBody "<Stream>call-1</Stream>")] |}.
Proof. split; vm_compute; reflexivity. Qed.

(** The status callback and the sessions.  A callback reporting
    [in-progress] calls no method of any session, sends nothing to any
    control client and leaves the server state as it was; and whatever the
    callback reports, the only session method the handler ever calls is
    [updateStatus], with one of the telephony statuses ringing, completed,
    busy, failed, no-answer. *)
Lemma handleTwilioStatus_session_calls `{Env}
  (req : WebhookRequest) (st : CallServer) :
  let r := handleTwilioStatus req st in
  (parseWebhookBody (req_body req) !! "CallStatus" = Some "in-progress" →
     (∀ session call, SessionInvoke session call ∉ eff r)
     ∧ (∀ ws msg, WsSend ws msg ∉ eff r))
  ∧ (∀ session call, SessionInvoke session call ∈ eff r →
       ∃ status, call = updateStatus status ∧ status ∈ forwardedStatuses
                 ∧ status ≠ "connected" ∧ status ≠ "in-progress")
  ∧ post r = st
  ∧ val r = inr ().
Proof.
  intros r. subst r.
  destruct (signatureRejected (options st) req) eqn:Hrej.
  { rewrite (handleTwilioStatus_rejected _ _ Hrej). cbn [eff post val].
    split_and!; try done.
    - intros _. split; intros ? ? Hin; unfold rejection in Hin; trace_cases Hin.
    - intros ? ? Hin. unfold rejection in Hin. trace_cases Hin. }
  rewrite (handleTwilioStatus_accepted _ _ Hrej). cbn [eff post val].
  split_and!; try done.
  - intros Hstatus. rewrite Hstatus.
    destruct (resolved req st) as [session|]; [rewrite applyCallStatus_run|];
      cbn; split; intros ? ? Hin; trace_cases Hin.
  - intros session call Hin.
    destruct (resolved req st) as [found|]; [|trace_cases Hin].
    rewrite applyCallStatus_run in Hin. cbn [eff] in Hin.
    destruct (parseWebhookBody (req_body req) !! "CallStatus") as [status|];
      [|trace_cases Hin].
    destruct (String.eqb status "ringing") eqn:Hringing.
    { apply elem_of_app in Hin as [Hin|Hin]; [|trace_cases Hin].
      apply elem_of_cons in Hin as [Hin|Hin].
      - injection Hin as -> ->. exists "ringing". split; [done|].
        split; [by left|]. split; discriminate.
      - apply list_elem_of_fmap in Hin as (c & Heq & _). discriminate. }
    destruct (String.eqb status "in-progress") eqn:Hprogress; [trace_cases Hin|].
    destruct (bool_decide (status ∈ forwardedStatuses)) eqn:Hfw; [|trace_cases Hin].
    apply bool_decide_eq_true in Hfw.
    trace_cases Hin. injection Hin as -> ->. exists status.
    split; [done|]. split; [done|].
    apply String.eqb_neq in Hprogress. split; [|done].
    intros ->. unfold forwardedStatuses in Hfw. trace_cases Hfw.
Qed.

(** Of the methods of a session only [initializeMediaStream] leads to
    [connected]. *)
Lemma invoke_connected (call : SessionCall) (s : CallSession.t) :
  CallSession.status (invoke call s) = CallSession.connected →
  CallSession.status s = CallSession.connected
  ∨ (∃ ws, call = initializeMediaStream ws)
    ∧ CallSession.bridgeAttached (invoke call s) = true.
Proof.
  destruct call as [value|text| |ws|reference]; cbn [invoke].
  - unfold CallSession.updateStatus, CallSession.finish.
    repeat match goal with
           | |- context [if ?b then _ else _] => destruct b
           end;
      destruct (CallSession.status s) eqn:Hs; cbn; rewrite ?Hs; auto; try done.
  - auto.
  - unfold CallSession.hangup.
    destruct (CallSession.status s) eqn:Hs; cbn; rewrite ?Hs; auto; done.
  - unfold CallSession.initializeMediaStream.
    destruct (CallSession.bridgeAttached s || _); cbn; [auto|].
    intros _. right. split; [by exists ws|done].
  - cbn. auto.
Qed.

(** No sequence of calls without an [initializeMediaStream] takes a session
    to [connected]. *)
Lemma invokeAll_connected (calls : list SessionCall) (s : CallSession.t) :
  Forall (λ call, ∀ ws, call ≠ initializeMediaStream ws) calls →
  CallSession.status (invokeAll calls s) = CallSession.connected →
  CallSession.status s = CallSession.connected.
Proof.
  revert s. induction calls as [|call calls IH]; intros s Hcalls Hconnected; [done|].
  apply Forall_cons in Hcalls as [Hcall Hcalls].
  apply (IH _ Hcalls) in Hconnected.
  apply invoke_connected in Hconnected as [?|[[ws ->] _]]; [done|].
  by destruct (Hcall ws).
Qed.

Lemma sessionCalls_spec (effs : list Effect) (call : SessionCall) :
  call ∈ sessionCalls effs ↔ ∃ session, SessionInvoke session call ∈ effs.
Proof.
  unfold sessionCalls. rewrite list_elem_of_omap. split.
  - intros (e & Hin & Hcall). destruct e; try discriminate.
    injection Hcall as ->. by eexists.
  - intros (session & Hin). by exists (SessionInvoke session call).
Qed.

(** C8: a session becomes [connected] only when the media bridge attaches,
    and the status callback never takes it there.  On the session (from its
    specification): a method call that leaves a session [connected] which
    was not so before is [initializeMediaStream], and it has attached the
    bridge; on a live session without a bridge that call does attach it and
    the session is [connected]; [updateStatus] with [in-progress] changes
    nothing.  On the status callback (from the code): a callback reporting
    [in-progress] calls no method of any session, sends nothing to any
    control client and leaves the server state as it was; whatever the
    callback reports, the only session method the handler calls is
    [updateStatus], with one of ringing, completed, busy, failed,
    no-answer.  Together: whatever a status callback reports, a session that
    is [connected] after the calls the handler makes was [connected]
    before. *)
Theorem connected_only_on_media_attach `{Env}
  (req : WebhookRequest) (st : CallServer) :
  let r := handleTwilioStatus req st in
  (∀ call s,
     CallSession.status (invoke call s) = CallSession.connected →
     CallSession.status s = CallSession.connected
     ∨ (∃ ws, call = initializeMediaStream ws)
       ∧ CallSession.bridgeAttached (invoke call s) = true)
  ∧ (∀ ws s,
       CallSession.status s ≠ CallSession.ended →
       CallSession.bridgeAttached s = false →
       CallSession.status (invoke (initializeMediaStream ws) s) = CallSession.connected
       ∧ CallSession.bridgeAttached (invoke (initializeMediaStream ws) s) = true)
  ∧ (∀ s, invoke (updateStatus "in-progress") s = s)
  ∧ (parseWebhookBody (req_body req) !! "CallStatus" = Some "in-progress" →
     (∀ session call, SessionInvoke session call ∉ eff r)
     ∧ (∀ ws msg, WsSend ws msg ∉ eff r))
  ∧ (∀ session call, SessionInvoke session call ∈ eff r →
       ∃ status, call = updateStatus status ∧ status ∈ forwardedStatuses
                 ∧ status ≠ "connected" ∧ status ≠ "in-progress")
  ∧ post r = st
  ∧ val r = inr ()
  ∧ (∀ s,
       CallSession.status (invokeAll (sessionCalls (eff r)) s) = CallSession.connected →
       CallSession.status s = CallSession.connected).
Proof.
  intros r.
  destruct (handleTwilioStatus_session_calls req st) as (Hprogress & Hcalls & Hpost & Hval).
  fold r in Hprogress, Hcalls, Hpost, Hval.
  split_and!; try done.
  - apply invoke_connected.
  - intros ws s Hlive Hbridge. cbn [invoke].
    unfold CallSession.initializeMediaStream. rewrite Hbridge.
    rewrite bool_decide_eq_false_2 by done. done.
  - intros s. apply invokeAll_connected. apply Forall_forall.
    intros call Hin ws ->. apply sessionCalls_spec in Hin as [session Hin].
    apply Hcalls in Hin as (status & Heq & _). discriminate.
Qed.

Example session_connects_on_attach :
  let placed := invoke (setCallSid "CA123") CallSession.new in
  let rung := invoke (updateStatus "ringing") placed in
  CallSession.callSid placed = Some "CA123"
  ∧ CallSession.status rung = CallSession.ringing
  ∧ CallSession.status (invoke (updateStatus "in-progress") rung) = CallSession.ringing
  ∧ CallSession.status (invoke (initializeMediaStream 7) rung) = CallSession.connected
  ∧ CallSession.status
      (invoke (updateStatus "ringing") (invoke (initializeMediaStream 7) rung))
    = CallSession.connected
  ∧ CallSession.status
      (invoke (updateStatus "completed") (invoke (initializeMediaStream 7) rung))
    = CallSession.ended
  ∧ CallSession.initializeMediaStream (invoke (initializeMediaStream 7) rung) = None.
Proof. repeat split; reflexivity. Qed.

Example in_progress_callback_run :
  let req := {| req_url := "/twilio/status?callId=call-1";
                req_signature := Some "valid";
                req_callId := Some "call-1";
                req_body := "CallStatus=in-progress" |} in
  @handleTwilioStatus Demo.healthy req Demo.server
  = {| val := inr (); post := Demo.server;
       eff := [Respond 200 "application/json" ReceivedBody] |}.
Proof. vm_compute. reflexivity. Qed.

(** ** Claims about the control plane *)

Section Control.
Context `{Env}.

(** [speak] at an unknown call: one error reply, to the socket the message
    came from, and to no other. *)
Lemma speak_unknown_call ws callId text st :
  sessions st !! callId = None →
  onControlMessage ws (inr (speak callId text)) st
  = {| val := inr (); post := st;
       eff := [WsSend ws (error_message (Some callId) "Call not found")] |}.
Proof. intros Hnone. unfold onControlMessage, handleControlMessage. run. by rewrite Hnone. Qed.

(** [hangup] at an unknown call: the switch falls through; nothing is sent. *)
Lemma hangup_unknown_call ws callId st :
  sessions st !! callId = None →
  onControlMessage ws (inr (hangup callId)) st
  = {| val := inr (); post := st; eff := [] |}.
Proof. intros Hnone. unfold onControlMessage, handleControlMessage. run. by rewrite Hnone. Qed.

End Control.

(** C3, at the input where the code departs from it: on the demo server
    (clients 1 and 2 connected, one live call), client 1 addresses a call
    identifier that is not in the table.  For [speak] the error goes to
    client 1 and to nobody else; for [hangup] the server sends nothing at
    all, so client 1 gets no error reply. *)
Theorem control_unknown_call_replies :
  @onControlMessage Demo.healthy 1 (inr (speak "no-such-call" "hello")) Demo.server
    = {| val := inr (); post := Demo.server;
         eff := [WsSend 1 (error_message (Some "no-such-call") "Call not found")] |}
  ∧ @onControlMessage Demo.healthy 1 (inr (hangup "no-such-call")) Demo.server
    = {| val := inr (); post := Demo.server; eff := [] |}.
Proof. split; vm_compute; reflexivity. Qed.

(** ** Claims about the media plane *)

(** C4 as stated fails: a first [start] frame without a call identifier and
    one with an identifier that matches no session are closed with the same
    status code, 1008. *)
Lemma media_handshake_same_close_code :
  closeCodes (eff (onMediaMessage 7 false (startFrame None) Demo.server))
    = [1008]
  ∧ closeCodes (eff (onMediaMessage 7 false
                       (startFrame (Some "no-such-call")) Demo.server))
    = [1008].
Proof. split; vm_compute; reflexivity. Qed.

(** C4 (as the code has it): on a connection that has not been initialised,
    a [start] frame without a call identifier closes the socket with code
    1008 and reason [Missing callId]; one whose identifier matches no
    session closes it with the same code 1008 and reason [Call not found].
    In both cases the server state is unchanged, the connection stays
    uninitialised, and the trace is the log lines and the close: no session
    method is called. *)
Theorem media_handshake_failures (ws : WebSocket) (st : CallServer)
  (callId : option string) :
  let r := onMediaMessage ws false (startFrame callId) st in
  (truthy callId = false →
     r = {| val := inr false; post := st;
            eff := [Console LogInfo ("[Media] Received start event, callId: " +:+ render callId);
                    Console LogError "[Media] No callId in start event customParameters";
                    WsClose ws 1008 "Missing callId"] |})
  ∧ (∀ c, callId = Some c → c ≠ "" → sessions st !! c = None →
     r = {| val := inr false; post := st;
            eff := [Console LogInfo ("[Media] Received start event, callId: " +:+ c);
                    Console LogError ("[Media] No session found for call " +:+ c);
                    WsClose ws 1008 "Call not found"] |})
  ∧ "Missing callId" ≠ "Call not found".
Proof.
  intros r. subst r. unfold onMediaMessage, startFrame. split_and!; [| |done].
  - intros Hfalsy. run. unfold whenTruthy. by rewrite Hfalsy.
  - intros c -> Hne Hnone. run. unfold whenTruthy, truthy.
    apply String.eqb_neq in Hne.
    rewrite Hne, bool_decide_eq_true_2 by done. cbn. by rewrite Hnone.
Qed.

Lemma initializations_app l1 l2 :
  initializations (l1 ++ l2) = initializations l1 + initializations l2.
Proof. unfold initializations. by rewrite filter_app, length_app. Qed.

(** Once the flag is set the listener does nothing with any frame, except
    log a frame it cannot parse. *)
Lemma onMediaMessage_initialized ws data st :
  let r := onMediaMessage ws true data st in
  val r = inr true ∧ post r = st ∧ initializations (eff r) = 0
  ∧ (∀ msg, data = inr msg → eff r = []).
Proof.
  unfold onMediaMessage. destruct data as [e|msg]; run; [done|].
  rewrite andb_false_r. done.
Qed.

(** Before that, a frame either sets the flag with exactly one
    initialisation or leaves it clear with none. *)
Lemma onMediaMessage_uninitialized ws data st :
  let r := onMediaMessage ws false data st in
  (val r = inr true ∧ initializations (eff r) = 1)
  ∨ (val r = inr false ∧ initializations (eff r) = 0).
Proof.
  unfold onMediaMessage. destruct data as [e|msg]; run; [by right|].
  rewrite andb_true_r.
  destruct (bool_decide (event msg = Some "start")); [|by right].
  destruct (whenTruthy (start_callId msg)) as [c|]; cbn; [|by right].
  destruct (sessions st !! c); cbn; [by left|by right].
Qed.

Lemma mediaConnection_initialized ws frames :
  initializations (mediaConnection ws true frames) = 0.
Proof.
  induction frames as [|[st data] frames IH]; [done|].
  cbn [mediaConnection].
  destruct (onMediaMessage_initialized ws data st) as (Hval & _ & Hzero & _).
  rewrite initializations_app, Hzero, Hval. done.
Qed.

(** C7: over the whole life of a media connection, whatever frames arrive
    and whatever the session table holds when each arrives, the socket is
    handed to a session's [initializeMediaStream] at most once; after the
    frame that did it, a further [start] frame is ignored: no effect, the
    flag stays set, the server state is unchanged. *)
Theorem media_initialized_at_most_once (ws : WebSocket)
  (frames : list (CallServer * (Thrown + MediaMessage))) :
  (initializations (mediaConnection ws false frames) ≤ 1)%nat
  ∧ (∀ st callId,
       onMediaMessage ws true (startFrame callId) st
       = {| val := inr true; post := st; eff := [] |}).
Proof.
  split.
  - induction frames as [|[st data] frames IH]; [cbn; lia|].
    cbn [mediaConnection]. rewrite initializations_app.
    destruct (onMediaMessage_uninitialized ws data st) as [[Hval Hn]|[Hval Hn]];
      rewrite Hval, Hn.
    + rewrite mediaConnection_initialized. lia.
    + simpl. done.
  - intros st callId. reflexivity.
Qed.

Example media_second_start_ignored :
  mediaConnection 7 false
    [(Demo.server, startFrame (Some "call-1"));
     (Demo.server, startFrame (Some "call-1"))]
  = [Console LogInfo "[Media] Received start event, callId: call-1";
     Console LogInfo "[Media] Found session, initializing media stream...";
     SessionInvoke Demo.session1 (initializeMediaStream 7)].
Proof. vm_compute. reflexivity. Qed.

(** ** Claims about the call session *)

(** C6: [hangup()] is idempotent.  A second call returns the session as the
    first left it, with nothing added to its history, and so does any call
    on a session that has already ended; a live session that has emitted no
    [ended] event has emitted exactly one after two calls of [hangup()]. *)
Theorem hangup_idempotent (s : CallSession.t) :
  CallSession.status s ≠ CallSession.ended →
  CallSession.endedEvents s = 0 →
  CallSession.hangup (CallSession.hangup s) = CallSession.hangup s
  ∧ CallSession.status (CallSession.hangup s) = CallSession.ended
  ∧ CallSession.endedEvents (CallSession.hangup s) = 1
  ∧ CallSession.endedEvents (CallSession.hangup (CallSession.hangup s)) = 1
  ∧ (∀ s', CallSession.status s' = CallSession.ended → CallSession.hangup s' = s').
Proof.
  intros Hlive Hnone.
  assert (Hended : ∀ s', CallSession.status s' = CallSession.ended →
                         CallSession.hangup s' = s').
  { intros s' Hs'. unfold CallSession.hangup. by rewrite Hs'. }
  assert (Hstatus : CallSession.status (CallSession.hangup s) = CallSession.ended).
  { unfold CallSession.hangup. by destruct (CallSession.status s). }
  assert (Hone : CallSession.endedEvents (CallSession.hangup s) = 1).
  { unfold CallSession.endedEvents, CallSession.hangup in *.
    destruct (CallSession.status s); try done;
      cbn [CallSession.history]; rewrite filter_app, length_app, Hnone; done. }
  split_and!; try done.
  - by apply Hended.
  - by rewrite (Hended _ Hstatus).
Qed.

Lemma hangup_idempotent_witness :
  CallSession.hangup (CallSession.hangup CallSession.new)
    = CallSession.hangup CallSession.new
  ∧ CallSession.status (CallSession.hangup CallSession.new) = CallSession.ended
  ∧ CallSession.endedEvents (CallSession.hangup CallSession.new) = 1
  ∧ CallSession.endedEvents (CallSession.hangup (CallSession.hangup CallSession.new)) = 1
  ∧ (∀ s', CallSession.status s' = CallSession.ended → CallSession.hangup s' = s').
Proof.
  apply (hangup_idempotent CallSession.new).
  - discriminate.
  - reflexivity.
Defined.

(** * Further properties of the server *)

(** ** The body limit *)

Lemma string_app_cons x (a b : string) : String x a +:+ b = String x (a +:+ b).
Proof. reflexivity. Qed.

Lemma string_app_length (a b : string) :
  String.length (a +:+ b) = (String.length a + String.length b)%nat.
Proof.
  induction a as [|x a IH]; [done|].
  rewrite string_app_cons. cbn [String.length]. by rewrite IH.
Qed.

Lemma string_app_assoc (a b c : string) : (a +:+ b) +:+ c = a +:+ (b +:+ c).
Proof.
  induction a as [|x a IH]; [done|]. rewrite !string_app_cons. by rewrite IH.
Qed.

Lemma string_app_nil_r (a : string) : a +:+ "" = a.
Proof.
  induction a as [|x a IH]; [done|]. rewrite string_app_cons. by rewrite IH.
Qed.

Lemma readBody_acc chunks body bodySize :
  bodySize = N.of_nat (String.length body) →
  (bodySize ≤ MAX_BODY_SIZE)%N →
  readBody chunks body bodySize
  = if (MAX_BODY_SIZE <? N.of_nat (String.length (body +:+ wholeBody chunks)))%N
    then None else Some (body +:+ wholeBody chunks).
Proof.
  revert body bodySize.
  induction chunks as [|chunk chunks IH]; intros body bodySize -> Hfits.
  - cbn [readBody wholeBody foldr]. rewrite string_app_nil_r.
    destruct (N.ltb_spec MAX_BODY_SIZE (N.of_nat (String.length body))); [lia|done].
  - cbn [readBody wholeBody foldr].
    destruct (N.ltb_spec MAX_BODY_SIZE
                (N.of_nat (String.length body) + N.of_nat (String.length chunk)))
      as [Hlt|Hle].
    + rewrite !string_app_length.
      destruct (N.ltb_spec MAX_BODY_SIZE
                  (N.of_nat (String.length body +
                     (String.length chunk + String.length (foldr String.append "" chunks)))));
        [done|lia].
    + rewrite (IH (body +:+ chunk)); [|rewrite string_app_length; lia|done].
      by rewrite string_app_assoc.
Qed.

Lemma receiveBody_run (chunks : list string) (onEnd : string → Front)
  (st : CallServer) :
  receiveBody chunks onEnd st
  = if (MAX_BODY_SIZE <? N.of_nat (String.length (wholeBody chunks)))%N
    then (st, [Core (Respond 413 "application/json"
                       (ErrorBody "Request body too large"));
               DestroyRequest])
    else onEnd (wholeBody chunks) st.
Proof.
  unfold receiveBody. rewrite (readBody_acc chunks "" 0); [|done|done].
  change ("" +:+ wholeBody chunks) with (wholeBody chunks).
  by destruct (MAX_BODY_SIZE <? N.of_nat (String.length (wholeBody chunks)))%N.
Qed.

(** X1: a request body is read whole exactly when its chunks add up to at
    most 1 MiB (1048576 bytes), and the [end] stage then gets the chunks put
    together in order; a larger body is answered 413, the request is
    destroyed, and the [end] stage does not run. *)
Theorem receiveBody_limit (chunks : list string) (onEnd : string → Front)
  (st : CallServer) :
  receiveBody chunks onEnd st
  = if (1048576 <? N.of_nat (String.length (wholeBody chunks)))%N
    then (st, [Core (Respond 413 "application/json"
                       (ErrorBody "Request body too large"));
               DestroyRequest])
    else onEnd (wholeBody chunks) st.
Proof. apply receiveBody_run. Qed.

(** ** Traces of the front *)

Lemma statusCodes_app l1 l2 : statusCodes (l1 ++ l2) = statusCodes l1 ++ statusCodes l2.
Proof. apply omap_app. Qed.

Lemma coreEffects_app l1 l2 : coreEffects (l1 ++ l2) = coreEffects l1 ++ coreEffects l2.
Proof. apply omap_app. Qed.

Lemma coreStatusCodes_app l1 l2 :
  coreStatusCodes (l1 ++ l2) = coreStatusCodes l1 ++ coreStatusCodes l2.
Proof. apply omap_app. Qed.

Lemma statusCodes_Core effs : statusCodes (Core <$> effs) = coreStatusCodes effs.
Proof.
  induction effs as [|e effs IH]; [done|].
  unfold statusCodes, coreStatusCodes in *. cbn. rewrite IH. by destruct e.
Qed.

Lemma coreEffects_Core effs : coreEffects (Core <$> effs) = effs.
Proof.
  induction effs as [|e effs IH]; [done|].
  unfold coreEffects in *. cbn. by rewrite IH.
Qed.

Lemma coreStatusCodes_sends msg (clients : list WebSocket) :
  coreStatusCodes ((λ client, WsSend client msg) <$> clients) = [].
Proof. induction clients as [|c clients IH]; [done|]. exact IH. Qed.

Section FrontFacts.
Context `{Env}.

(** [initiateCallInternal] writes no HTTP response. *)
Lemma initiateCallInternal_no_response phoneNumber goal context st :
  coreStatusCodes (eff (initiateCallInternal phoneNumber goal context st)) = [].
Proof.
  destruct (find (λ result, negb (ok result)) (preflights st goal context))
    as [failed|] eqn:Hfind.
  - by rewrite (initiateCallInternal_failed _ _ _ _ _ Hfind).
  - pose proof (initiateCallInternal_passed phoneNumber goal context st Hfind) as Hrun.
    cbv zeta in Hrun. rewrite Hrun.
    destruct (initiateCall _ _ _); cbn [eff]; [done|].
    rewrite !coreStatusCodes_app, coreStatusCodes_sends. done.
Qed.

(** The state after [initiateCallInternal]: the old one, or the old one
    with the new session, or the old one without the new call identifier. *)
Lemma initiateCallInternal_post phoneNumber goal context st :
  let r := initiateCallInternal phoneNumber goal context st in
  post r = st
  ∨ post r = with_sessions (insert randomUUID (newSession phoneNumber goal context)) st
  ∨ post r = with_sessions (delete randomUUID) st.
Proof.
  cbv zeta.
  destruct (find (λ result, negb (ok result)) (preflights st goal context))
    as [failed|] eqn:Hfind.
  - left. by rewrite (initiateCallInternal_failed _ _ _ _ _ Hfind).
  - pose proof (initiateCallInternal_passed phoneNumber goal context st Hfind) as Hrun.
    cbv zeta in Hrun. rewrite Hrun.
    destruct (initiateCall _ _ _); cbn [post]; [|by right; left].
    right; right. unfold with_sessions. cbn. by rewrite delete_insert_eq.
Qed.

(** The voice webhook, accepted. *)
Lemma handleTwilioVoice_accepted req st :
  signatureRejected (options st) req = false →
  handleTwilioVoice req st
  = {| val := inr (); post := st;
       eff := [Respond 200 "application/xml"
                 (TwimlBody
                    match whenTruthy (req_callId req) with
                    | Some callId =>
                        if bool_decide (is_Some (sessions st !! callId))
                        then generateMediaStreamsTwiml (config (options st)) callId
                        else generateErrorTwiml
                          "Sorry, this call cannot be connected. Please try again later."
                    | None => generateErrorTwiml
                        "Sorry, this call cannot be connected. Please try again later."
                    end)] |}.
Proof.
  intros Hrej. unfold handleTwilioVoice. run. rewrite Hrej. cbn.
  destruct (whenTruthy (req_callId req)) as [callId|]; [|done].
  by destruct (bool_decide (is_Some (sessions st !! callId))).
Qed.

Lemma applyCallStatus_no_response session status st :
  coreStatusCodes (eff (applyCallStatus session status st)) = [].
Proof.
  rewrite applyCallStatus_run. cbn [eff].
  destruct status as [status|]; [|done].
  destruct (String.eqb status "ringing"); [cbn; apply coreStatusCodes_sends|].
  destruct (String.eqb status "in-progress"); [done|].
  by destruct (bool_decide (status ∈ forwardedStatuses)).
Qed.

(** Each webhook handler writes one response: 403 or 200. *)
Lemma handleTwilioVoice_status req st :
  post (handleTwilioVoice req st) = st
  ∧ (coreStatusCodes (eff (handleTwilioVoice req st)) = [403]
     ∨ coreStatusCodes (eff (handleTwilioVoice req st)) = [200]).
Proof.
  destruct (signatureRejected (options st) req) eqn:Hrej.
  - rewrite (handleTwilioVoice_rejected _ _ Hrej). split; [done|by left].
  - rewrite (handleTwilioVoice_accepted _ _ Hrej). split; [done|by right].
Qed.

Lemma handleTwilioStatus_status req st :
  post (handleTwilioStatus req st) = st
  ∧ (coreStatusCodes (eff (handleTwilioStatus req st)) = [403]
     ∨ coreStatusCodes (eff (handleTwilioStatus req st)) = [200]).
Proof.
  destruct (signatureRejected (options st) req) eqn:Hrej.
  - rewrite (handleTwilioStatus_rejected _ _ Hrej). split; [done|by left].
  - rewrite (handleTwilioStatus_accepted _ _ Hrej). split; [done|right].
    cbn [eff]. rewrite coreStatusCodes_app.
    destruct (resolved req st); [rewrite applyCallStatus_no_response|]; done.
Qed.

End FrontFacts.

Section FrontClaims.
Context `{Env}.
Variable parseCallRequest : string → Thrown + CallRequestBody.

Lemma callRequestFailed_once err st :
  (callRequestFailed err st).1 = st
  ∧ ∃ status, statusCodes (callRequestFailed err st).2 = [status]
              ∧ (status = 400 ∨ status = 500).
Proof.
  unfold callRequestFailed, respondError. cbn. split; [done|].
  destruct (includes "preflight" _); eexists; (split; [reflexivity|]); auto.
Qed.

Lemma handleCallRequestEnd_once body st :
  ∃ status, statusCodes (handleCallRequestEnd parseCallRequest body st).2 = [status].
Proof.
  unfold handleCallRequestEnd.
  destruct (parseCallRequest body) as [err|data].
  { destruct (callRequestFailed_once err st) as (_ & status & -> & _). by exists status. }
  destruct (requiredText (body_phoneNumber data)) as [phoneNumber|]; [|by eexists].
  destruct (requiredText (body_goal data)) as [goal|]; [|by eexists].
  destruct (MAX_PHONE_LENGTH <? String.length phoneNumber)%nat; [by eexists|].
  destruct (MAX_GOAL_LENGTH <? String.length goal)%nat; [by eexists|].
  destruct (contextTooLong (body_context data) MAX_CONTEXT_LENGTH); [by eexists|].
  pose proof (initiateCallInternal_no_response phoneNumber goal (body_context data) st)
    as Hnone.
  destruct (val (initiateCallInternal phoneNumber goal (body_context data) st))
    as [err|callId].
  - destruct (callRequestFailed_once err
                (post (initiateCallInternal phoneNumber goal (body_context data) st)))
      as (_ & status & Hstatus & _).
    destruct (callRequestFailed err _) as [st' out]. cbn [fst snd] in *.
    exists status. by rewrite statusCodes_app, statusCodes_Core, Hnone, Hstatus.
  - cbn [snd]. exists 200. by rewrite statusCodes_app, statusCodes_Core, Hnone.
Qed.

Lemma receiveBody_once chunks (onEnd : string → Front) st :
  (∀ body, ∃ status, statusCodes (onEnd body st).2 = [status]) →
  ∃ status, statusCodes (receiveBody chunks onEnd st).2 = [status].
Proof.
  intros Hend. unfold receiveBody.
  destruct (readBody chunks "" 0) as [body|]; [apply Hend|by eexists].
Qed.

(** Past the parsing of the request target, every request is answered
    exactly once, after the three CORS headers. *)
Lemma handleHttpRequest_parsed (req : HttpRequest) (url : Url) (st : CallServer) :
  http_location req = inr url →
  ∃ result,
    handleHttpRequest parseCallRequest req st = inr result
    ∧ (∃ status, statusCodes result.2 = [status])
    ∧ ∃ rest, result.2 = corsHeaders ++ rest.
Proof.
  intros Hurl. unfold handleHttpRequest. rewrite Hurl. cbv zeta.
  eexists. split; [reflexivity|].
  destruct (String.eqb (default "GET" (http_method req)) "OPTIONS").
  { cbn. split; [by eexists|by eexists]. }
  set (method := default "GET" (http_method req)).
  assert (Hroute : ∀ p : CallServer * list FrontEffect,
            (∃ status, statusCodes p.2 = [status]) →
            (∃ status, statusCodes (let (st', out) := p in (st', corsHeaders ++ out)).2
                       = [status])
            ∧ ∃ rest, (let (st', out) := p in (st', corsHeaders ++ out)).2
                      = corsHeaders ++ rest).
  { intros [st' out] [status Hstatus]. cbn [fst snd] in *. split; [|by eexists].
    exists status. by rewrite statusCodes_app, Hstatus. }
  apply Hroute.
  destruct (_ && String.eqb (url_pathname url) "/health"); [by eexists|].
  destruct (_ && String.eqb (url_pathname url) "/status"); [by eexists|].
  destruct (_ && String.eqb (url_pathname url) "/call").
  { apply receiveBody_once. intros body. apply handleCallRequestEnd_once. }
  destruct (_ && String.eqb (url_pathname url) "/twilio/voice").
  { apply receiveBody_once. intros body. unfold lift. cbn [snd].
    rewrite statusCodes_Core.
    destruct (handleTwilioVoice_status (webhookRequest req url body) st)
      as [_ [->| ->]]; by eexists. }
  destruct (_ && String.eqb (url_pathname url) "/twilio/status").
  { apply receiveBody_once. intros body. unfold lift. cbn [snd].
    rewrite statusCodes_Core.
    destruct (handleTwilioStatus_status (webhookRequest req url body) st)
      as [_ [->| ->]]; by eexists. }
  destruct (_ && String.prefix "/status/" (url_pathname url)).
  { unfold handleCallStatusCheck. destruct (sessions st !! _); by eexists. }
  by eexists.
Qed.

(** X2: an HTTP request whose target parses as a URL is answered exactly
    once, whatever its method, path and body, and the three CORS headers are
    set before the answer.  A request whose target does not parse (such as
    [//]) is not answered at all: the handler ends by the exception of
    [new URL], before any header is set, whatever the method. *)
Theorem handleHttpRequest_answers_once (req : HttpRequest) (st : CallServer) :
  (∀ url, http_location req = inr url →
     ∃ st' out,
       handleHttpRequest parseCallRequest req st = inr (st', out)
       ∧ (∃ status, statusCodes out = [status])
       ∧ ∃ rest, out = corsHeaders ++ rest)
  ∧ (∀ err, http_location req = inl err →
       handleHttpRequest parseCallRequest req st = inl err).
Proof.
  split; [|unfold handleHttpRequest].
  - intros url Hurl.
    destruct (handleHttpRequest_parsed req url st Hurl) as ([st' out] & -> & Honce).
    exists st', out. split; [done|exact Honce].
  - by intros err ->.
Qed.

(** X3: a request whose target parses and whose method is none of GET,
    POST and OPTIONS (HEAD, PUT, DELETE, a lower-case [get]) is answered 404
    [Not found] on every path, and nothing else happens: no handler runs and
    the server state is unchanged. *)
Theorem handleHttpRequest_other_method (req : HttpRequest) (st : CallServer)
  (method : string) (url : Url) :
  http_location req = inr url →
  http_method req = Some method →
  method ≠ "GET" → method ≠ "POST" → method ≠ "OPTIONS" →
  handleHttpRequest parseCallRequest req st
  = inr (st, corsHeaders ++
             [Core (Respond 404 "application/json" (ErrorBody "Not found"))]).
Proof.
  intros Hurl Hmethod Hget Hpost Hoptions. unfold handleHttpRequest.
  rewrite Hurl, Hmethod. change (default "GET" (Some method)) with method.
  apply String.eqb_neq in Hget, Hpost, Hoptions.
  rewrite Hoptions, Hget, Hpost. done.
Qed.

End FrontClaims.

(** ** Strings *)

Lemma prefix_app (needle rest : string) : String.prefix needle (needle +:+ rest) = true.
Proof.
  induction needle as [|c needle IH]; [by destruct rest|].
  rewrite string_app_cons. cbn [String.prefix].
  destruct (Ascii.ascii_dec c c); [exact IH|done].
Qed.

Lemma includes_prefix (needle hay : string) :
  String.prefix needle hay = true → includes needle hay = true.
Proof. intros Hp. destruct hay; cbn [includes]; by rewrite Hp. Qed.

Lemma includes_app (needle before after : string) :
  includes needle (before +:+ needle +:+ after) = true.
Proof.
  induction before as [|c before IH].
  - change ("" +:+ needle +:+ after) with (needle +:+ after).
    apply includes_prefix, prefix_app.
  - rewrite string_app_cons. cbn [includes]. rewrite IH. apply orb_true_r.
Qed.

Lemma toLowerCase_app (a b : string) :
  toLowerCase (a +:+ b) = toLowerCase a +:+ toLowerCase b.
Proof.
  induction a as [|c a IH]; [done|].
  rewrite string_app_cons. cbn [toLowerCase]. by rewrite IH, string_app_cons.
Qed.

Lemma lastSegment_no_slash (s segment : string) :
  includes "/" s = false → lastSegment s segment = segment +:+ s.
Proof.
  revert segment. induction s as [|c s IH]; intros segment Hno.
  - by rewrite string_app_nil_r.
  - cbn [includes String.prefix] in Hno.
    apply orb_false_iff in Hno as [Hc Hs].
    cbn [lastSegment].
    destruct (Ascii.eqb_spec c slash) as [->|Hne].
    + exfalso. revert Hc. by destruct s.
    + rewrite (IH _ Hs), string_app_assoc. done.
Qed.

(** ** Routes and POST /call *)

Section Routes.
Context `{Env}.
Variable parseCallRequest : string → Thrown + CallRequestBody.

(** X4: GET /status/<id>, for an identifier without a slash, answers with
    the state of the session filed under exactly that identifier, and with
    404 [Call not found] when the table has none; the server state is
    unchanged either way.  A request without a method counts as GET.  (The
    path is that of the parsed request target.) *)
Theorem handleHttpRequest_call_status (req : HttpRequest) (st : CallServer)
  (id : string) (url : Url) :
  default "GET" (http_method req) = "GET" →
  http_location req = inr url →
  url_pathname url = "/status/" +:+ id →
  includes "/" id = false →
  handleHttpRequest parseCallRequest req st
  = inr (st, corsHeaders ++
             match sessions st !! id with
             | Some session =>
                 [RespondWith 200 (Some "application/json") (SessionStateBody session)]
             | None =>
                 [Core (Respond 404 "application/json" (ErrorBody "Call not found"))]
             end).
Proof.
  intros Hmethod Hurl Hpath Hid. unfold handleHttpRequest.
  rewrite Hurl, Hmethod, Hpath.
  change (String.eqb "GET" "OPTIONS") with false.
  change (String.eqb "GET" "GET") with true.
  change (String.eqb "GET" "POST") with false.
  change (String.eqb ("/status/" +:+ id) "/health") with false.
  change (String.eqb ("/status/" +:+ id) "/status") with false.
  rewrite (prefix_app "/status/" id).
  change (lastSegment ("/status/" +:+ id) "") with (lastSegment id "").
  cbn [andb]. rewrite (lastSegment_no_slash id "" Hid).
  change ("" +:+ id) with id.
  unfold handleCallStatusCheck, respondError. by destruct (sessions st !! id).
Qed.

(** What the length check of [context] lets through. *)
Lemma contextTooLong_false (context : option ContextValue) :
  contextTooLong context 5000 = false
  ↔ (∀ c, context = Some (ContextText c) → (String.length c ≤ 5000)%nat)
    ∧ (∀ value, context = Some (ContextOther value) →
         json_truthy value = true → json_longer value 5000 = false).
Proof.
  destruct context as [[c|value]|]; cbn [contextTooLong contextTruthy contextLonger].
  - unfold truthy. split.
    + intros Hcheck. split; [|done]. intros c' [= Heq]. rewrite <- Heq.
      clear Heq. destruct (String.eqb_spec c "") as [Hempty|Hne];
        [rewrite Hempty; apply Nat.le_0_l|].
      cbn [negb andb] in Hcheck. by apply Nat.ltb_ge in Hcheck.
    + intros [Hlen _]. specialize (Hlen c eq_refl).
      apply Nat.ltb_ge in Hlen. rewrite Hlen. apply andb_false_r.
  - split.
    + intros Hcheck. split; [done|]. intros value' [= Heq]. rewrite <- Heq.
      intros Htruthy. by rewrite Htruthy in Hcheck.
    + intros [_ Hother]. destruct (json_truthy value) eqn:Htruthy; [|done].
      by rewrite (Hother value eq_refl Htruthy).
  - done.
Qed.

(** POST /call on a well-formed request is [initiateCallInternal] and the
    response to its result. *)
Lemma handleCallRequest_wellFormed req st phoneNumber goal context :
  wellFormedCall parseCallRequest req phoneNumber goal context →
  handleCallRequest parseCallRequest req st
  = let r := initiateCallInternal phoneNumber goal context st in
    match val r with
    | inr callId =>
        (post r,
         (Core <$> eff r) ++
         [RespondWith 200 (Some "application/json") (InitiatingBody callId)])
    | inl err =>
        (post r, (Core <$> eff r) ++ (callRequestFailed err (post r)).2)
    end.
Proof.
  intros (Hfits & Hparse & Hp & Hg & Hpl & Hgl & Hcl).
  apply contextTooLong_false in Hcl.
  unfold handleCallRequest. rewrite receiveBody_run. change MAX_BODY_SIZE with 1048576%N.
  apply N.ltb_ge in Hfits. rewrite Hfits.
  unfold handleCallRequestEnd. rewrite Hparse.
  cbn [body_phoneNumber body_goal body_context requiredText].
  unfold whenTruthy at 1 2, truthy.
  apply String.eqb_neq in Hp, Hg. rewrite Hp, Hg. cbn [negb].
  apply Nat.ltb_ge in Hpl, Hgl.
  change MAX_PHONE_LENGTH with 20%nat. change MAX_GOAL_LENGTH with 1000%nat.
  rewrite Hpl, Hgl.
  change MAX_CONTEXT_LENGTH with 5000%nat. rewrite Hcl. cbv beta zeta.
  destruct (val (initiateCallInternal phoneNumber goal context st)); [|reflexivity].
  unfold callRequestFailed, respondError. reflexivity.
Qed.

(** The [end] stage of POST /call: either one error response and nothing
    else, or, on a well-formed body, [initiateCallInternal] and the response
    to its result. *)
Lemma handleCallRequestEnd_cases body st :
  (∃ status error,
     handleCallRequestEnd parseCallRequest body st
     = (st, [Core (Respond status "application/json" (ErrorBody error))]))
  ∨ (∃ data phoneNumber goal,
       parseCallRequest body = inr data
       ∧ body_phoneNumber data = Text phoneNumber
       ∧ body_goal data = Text goal
       ∧ phoneNumber ≠ "" ∧ goal ≠ ""
       ∧ (String.length phoneNumber ≤ 20)%nat
       ∧ (String.length goal ≤ 1000)%nat
       ∧ contextTooLong (body_context data) 5000 = false
       ∧ handleCallRequestEnd parseCallRequest body st
         = let r := initiateCallInternal phoneNumber goal (body_context data) st in
           match val r with
           | inr callId =>
               (post r,
                (Core <$> eff r) ++
                [RespondWith 200 (Some "application/json") (InitiatingBody callId)])
           | inl err =>
               (post r, (Core <$> eff r) ++ (callRequestFailed err (post r)).2)
           end).
Proof.
  destruct (parseCallRequest body) as [err|data] eqn:Hparse.
  { left. unfold handleCallRequestEnd. rewrite Hparse.
    unfold callRequestFailed, respondError. do 2 eexists; reflexivity. }
  destruct (requiredText (body_phoneNumber data)) as [phoneNumber|] eqn:Hphone; cycle 1.
  { left. unfold handleCallRequestEnd. rewrite Hparse, Hphone.
    do 2 eexists; reflexivity. }
  destruct (requiredText (body_goal data)) as [goal|] eqn:Hgoal; cycle 1.
  { left. unfold handleCallRequestEnd. rewrite Hparse, Hphone, Hgoal.
    do 2 eexists; reflexivity. }
  destruct (MAX_PHONE_LENGTH <? String.length phoneNumber)%nat eqn:Hpl.
  { left. unfold handleCallRequestEnd. rewrite Hparse, Hphone, Hgoal, Hpl.
    do 2 eexists; reflexivity. }
  destruct (MAX_GOAL_LENGTH <? String.length goal)%nat eqn:Hgl.
  { left. unfold handleCallRequestEnd. rewrite Hparse, Hphone, Hgoal, Hpl, Hgl.
    do 2 eexists; reflexivity. }
  destruct (contextTooLong (body_context data) MAX_CONTEXT_LENGTH) eqn:Hcontext.
  { left. unfold handleCallRequestEnd.
    rewrite Hparse, Hphone, Hgoal, Hpl, Hgl, Hcontext.
    do 2 eexists; reflexivity. }
  right. exists data, phoneNumber, goal.
  assert (Hrequired : ∀ field text,
            requiredText field = Some text → field = Text text ∧ text ≠ "").
  { intros [| |s] text; cbn [requiredText]; [done|done|].
    unfold whenTruthy, truthy. destruct (String.eqb_spec s ""); cbn [negb]; [done|].
    intros [= ->]. done. }
  apply Hrequired in Hphone as [Hphone Hp], Hgoal as [Hgoal Hg].
  apply Nat.ltb_ge in Hpl, Hgl.
  split_and!; [done|done|done|done|done|exact Hpl|exact Hgl|exact Hcontext|].
  - unfold handleCallRequestEnd. rewrite Hparse, Hphone, Hgoal.
    cbn [requiredText]. unfold whenTruthy at 1 2, truthy.
    apply String.eqb_neq in Hp, Hg. rewrite Hp, Hg. cbn [negb].
    apply Nat.ltb_ge in Hpl, Hgl. rewrite Hpl, Hgl, Hcontext.
    cbv beta zeta.
    destruct (val (initiateCallInternal phoneNumber goal (body_context data) st));
      [|reflexivity].
    unfold callRequestFailed, respondError. reflexivity.
Qed.

(** X5: POST /call reaches the preflight checks only with a body of at
    most 1 MiB that parses, a non-empty string [phoneNumber] of at most 20
    characters and a non-empty string [goal] of at most 1000 characters.
    The [context] is bounded only as far as [context && context.length >
    5000] bounds it: a string context has at most 5000 characters, while a
    context that is not a string (a number, an array, an object; nothing
    tests its type) gets through whenever it is falsy or its [length] is not
    found greater than 5000. *)
Theorem handleCallRequest_guards (req : HttpRequest) (st : CallServer)
  (kind : PreflightKind) :
  RunPreflight kind ∈ coreEffects (handleCallRequest parseCallRequest req st).2 →
  (N.of_nat (String.length (wholeBody (http_chunks req))) ≤ 1048576)%N
  ∧ ∃ data phoneNumber goal,
      parseCallRequest (wholeBody (http_chunks req)) = inr data
      ∧ body_phoneNumber data = Text phoneNumber
      ∧ body_goal data = Text goal
      ∧ phoneNumber ≠ "" ∧ goal ≠ ""
      ∧ (String.length phoneNumber ≤ 20)%nat
      ∧ (String.length goal ≤ 1000)%nat
      ∧ (∀ c, body_context data = Some (ContextText c) →
           (String.length c ≤ 5000)%nat)
      ∧ (∀ value, body_context data = Some (ContextOther value) →
           json_truthy value = true → json_longer value 5000 = false).
Proof.
  unfold handleCallRequest. rewrite receiveBody_run. change MAX_BODY_SIZE with 1048576%N.
  destruct (N.ltb_spec 1048576 (N.of_nat (String.length (wholeBody (http_chunks req)))))
    as [Hlt|Hle].
  { intros Hin. unfold coreEffects in Hin. cbn in Hin. trace_cases Hin. }
  destruct (handleCallRequestEnd_cases (wholeBody (http_chunks req)) st)
    as [(status & error & ->)|(data & phoneNumber & goal & Hvalid)].
  { intros Hin. unfold coreEffects in Hin. cbn in Hin. trace_cases Hin. }
  intros _. split; [done|]. exists data, phoneNumber, goal.
  destruct Hvalid as (? & ? & ? & ? & ? & ? & ? & Hcontext & _).
  apply contextTooLong_false in Hcontext as [? ?]. done.
Qed.

(** X6: a POST /call that does not reach the preflight checks leaves the
    server state as it was and does nothing but write one JSON error
    response (and, for an oversized body, destroy the request): no session
    is created, no provider is called, nothing goes to any control client. *)
Theorem handleCallRequest_rejected_clean (req : HttpRequest) (st : CallServer) :
  (∀ kind, RunPreflight kind ∉ coreEffects (handleCallRequest parseCallRequest req st).2) →
  (handleCallRequest parseCallRequest req st).1 = st
  ∧ ∃ status error,
      coreEffects (handleCallRequest parseCallRequest req st).2
      = [Respond status "application/json" (ErrorBody error)].
Proof.
  unfold handleCallRequest. rewrite receiveBody_run. change MAX_BODY_SIZE with 1048576%N.
  destruct (1048576 <? N.of_nat (String.length (wholeBody (http_chunks req))))%N.
  { intros _. split; [done|]. by do 2 eexists. }
  destruct (handleCallRequestEnd_cases (wholeBody (http_chunks req)) st)
    as [(status & error & ->)|(data & phoneNumber & goal & Hvalid)].
  { intros _. split; [done|]. by do 2 eexists. }
  destruct Hvalid as (_ & _ & _ & _ & _ & _ & _ & _ & ->).
  intros Hnone. exfalso. apply (Hnone TwilioCallSetup).
  cbv zeta.
  assert (Hfirst : RunPreflight TwilioCallSetup
            ∈ eff (initiateCallInternal phoneNumber goal (body_context data) st)).
  { destruct (find (λ result, negb (ok result))
                (preflights st goal (body_context data))) as [failed|] eqn:Hfind.
    - rewrite (initiateCallInternal_failed _ _ _ _ _ Hfind). by left.
    - pose proof (initiateCallInternal_passed phoneNumber goal
                    (body_context data) st Hfind) as Hrun.
      cbv zeta in Hrun. rewrite Hrun.
      destruct (initiateCall _ _ _); cbn [eff]; unfold preflightCalls;
        rewrite <- ?app_assoc; by left. }
  destruct (val (initiateCallInternal phoneNumber goal (body_context data) st));
    cbn [snd]; rewrite coreEffects_app, coreEffects_Core;
    apply elem_of_app; by left.
Qed.

(** X7: a well-formed POST /call whose three preflight checks pass and
    whose origination succeeds is answered 200 with the new call identifier,
    the table then holds the new session under that identifier, and a status
    query for it is answered with that session. *)
Theorem post_call_success (req : HttpRequest) (st : CallServer)
  (phoneNumber goal callSid : string) (context : option ContextValue) :
  wellFormedCall parseCallRequest req phoneNumber goal context →
  Forall (λ result, ok result = true) (preflights st goal context) →
  initiateCall (config (options st)) (formatPhoneNumber phoneNumber) randomUUID
    = inr callSid →
  let result := handleCallRequest parseCallRequest req st in
  statusCodes result.2 = [200]
  ∧ RespondWith 200 (Some "application/json") (InitiatingBody randomUUID) ∈ result.2
  ∧ sessions result.1 !! randomUUID = Some (newSession phoneNumber goal context)
  ∧ handleCallStatusCheck randomUUID result.1
    = (result.1, [RespondWith 200 (Some "application/json")
                    (SessionStateBody (newSession phoneNumber goal context))]).
Proof.
  intros Hwf Hok Horig result. subst result.
  rewrite (handleCallRequest_wellFormed _ _ _ _ _ Hwf). cbv zeta.
  pose proof (initiateCallInternal_no_response phoneNumber goal context st) as Hnone.
  pose proof (initiateCallInternal_passed phoneNumber goal context st
                (find_failed_None _ Hok)) as Hrun.
  cbv zeta in Hrun. rewrite Horig in Hrun. rewrite Hrun in Hnone |- *.
  cbn [val post eff fst snd]. cbn [eff] in Hnone.
  assert (Hlookup : sessions (with_sessions
            (insert randomUUID (newSession phoneNumber goal context)) st) !! randomUUID
            = Some (newSession phoneNumber goal context)).
  { cbn. apply lookup_insert_eq. }
  split_and!.
  - by rewrite statusCodes_app, statusCodes_Core, Hnone.
  - apply elem_of_app. right. by left.
  - exact Hlookup.
  - unfold handleCallStatusCheck. by rewrite Hlookup.
Qed.

(** X8: a well-formed POST /call with a failed preflight check leaves the
    server state as it was and does nothing after the three preflight calls
    but answer with the message of a failed check; the status is 400 when
    that message, in lower case, contains [preflight], and 500 otherwise. *)
Theorem post_call_preflight_failure (req : HttpRequest) (st : CallServer)
  (phoneNumber goal : string) (context : option ContextValue) :
  wellFormedCall parseCallRequest req phoneNumber goal context →
  ¬ Forall (λ result, ok result = true) (preflights st goal context) →
  ∃ failed,
    failed ∈ preflights st goal context ∧ ok failed = false
    ∧ handleCallRequest parseCallRequest req st
      = (st, (Core <$> preflightCalls) ++
             [Core (Respond
                      (if includes "preflight" (toLowerCase (message failed))
                       then 400 else 500)
                      "application/json" (ErrorBody (message failed)))]).
Proof.
  intros Hwf Hfail.
  pose proof (find_failed_spec (preflights st goal context)) as Hspec.
  destruct (find _ (preflights st goal context)) as [failed|] eqn:Hfind; [|done].
  destruct Hspec as [Hin Hok]. exists failed. split; [done|]. split; [done|].
  rewrite (handleCallRequest_wellFormed _ _ _ _ _ Hwf). cbv zeta.
  rewrite (initiateCallInternal_failed _ _ _ _ _ Hfind). cbn [val post eff].
  unfold callRequestFailed, respondError. reflexivity.
Qed.

(** X9: the failure response of POST /call classifies by the text of the
    error alone: an [Error] whose message contains the word [preflight] in
    any mix of upper and lower case is answered 400 with that message; a
    thrown value that is not an [Error] is answered 500 [Internal server
    error], whatever it says. *)
Theorem callRequestFailed_classification (st : CallServer) :
  (∀ before word after,
     toLowerCase word = "preflight" →
     callRequestFailed (JsError (before +:+ word +:+ after)) st
     = (st, [Core (Respond 400 "application/json"
                     (ErrorBody (before +:+ word +:+ after)))]))
  ∧ (∀ value,
       callRequestFailed (JsValue value) st
       = (st, [Core (Respond 500 "application/json"
                       (ErrorBody "Internal server error"))])).
Proof.
  split.
  - intros before word after Hword. unfold callRequestFailed, respondError.
    cbn [messageOr]. rewrite !toLowerCase_app, Hword, includes_app. done.
  - intros value. reflexivity.
Qed.

End Routes.

Lemma handleHttpRequest_other_method_witness :
  @handleHttpRequest Demo.healthy DemoHttp.parse
    (DemoHttp.request "HEAD" "/health" []) Demo.server
  = inr (Demo.server, corsHeaders ++
           [Core (Respond 404 "application/json" (ErrorBody "Not found"))]).
Proof.
  apply (@handleHttpRequest_other_method Demo.healthy DemoHttp.parse
           (DemoHttp.request "HEAD" "/health" []) Demo.server "HEAD"
           {| url_pathname := "/health"; url_callId := None |});
    [reflexivity|reflexivity|discriminate..].
Defined.

Example unparsable_target_run :
  @handleHttpRequest Demo.healthy DemoHttp.parse
    (DemoHttp.unparsable "DELETE") Demo.server
  = inl (JsError "Invalid URL")
  ∧ @handleHttpRequest Demo.healthy DemoHttp.parse
      (DemoHttp.unparsable "OPTIONS") Demo.server
    = inl (JsError "Invalid URL")
  ∧ @handleHttpRequest Demo.healthy DemoHttp.parse
      (DemoHttp.request "OPTIONS" "/anything" []) Demo.server
    = inr (Demo.server, corsHeaders ++ [RespondWith 204 None NoBody]).
Proof. repeat split; reflexivity. Qed.

Lemma handleHttpRequest_call_status_witness :
  @handleHttpRequest Demo.healthy DemoHttp.parse
    (DemoHttp.request "GET" "/status/call-1" []) Demo.server
  = inr (Demo.server, corsHeaders ++
           match sessions Demo.server !! "call-1" with
           | Some session =>
               [RespondWith 200 (Some "application/json") (SessionStateBody session)]
           | None =>
               [Core (Respond 404 "application/json" (ErrorBody "Call not found"))]
           end).
Proof.
  apply (@handleHttpRequest_call_status Demo.healthy DemoHttp.parse
           (DemoHttp.request "GET" "/status/call-1" []) Demo.server "call-1"
           {| url_pathname := "/status/call-1"; url_callId := None |});
    reflexivity.
Defined.

Example call_status_run :
  @handleHttpRequest Demo.healthy DemoHttp.parse
    (DemoHttp.request "GET" "/status/call-1" []) Demo.server
  = inr (Demo.server, corsHeaders ++
           [RespondWith 200 (Some "application/json")
              (SessionStateBody Demo.session1)])
  ∧ @handleHttpRequest Demo.healthy DemoHttp.parse
      (DemoHttp.request "GET" "/status/" []) Demo.server
    = inr (Demo.server, corsHeaders ++
             [Core (Respond 404 "application/json" (ErrorBody "Call not found"))]).
Proof. split; vm_compute; reflexivity. Qed.

Lemma demo_call_wellFormed :
  wellFormedCall DemoHttp.parse DemoHttp.call
    "15551234567" "ask about checkout time" None.
Proof.
  split_and!; [apply N.leb_le; reflexivity|reflexivity|discriminate|discriminate
              |apply Nat.leb_le; reflexivity|apply Nat.leb_le; reflexivity
              |discriminate|discriminate].
Defined.

Lemma handleCallRequest_guards_witness :
  (N.of_nat (String.length (wholeBody (http_chunks DemoHttp.call))) ≤ 1048576)%N
  ∧ ∃ data phoneNumber goal,
      DemoHttp.parseWith DemoHttp.seven (wholeBody (http_chunks DemoHttp.call))
      = inr data
      ∧ body_phoneNumber data = Text phoneNumber
      ∧ body_goal data = Text goal
      ∧ phoneNumber ≠ "" ∧ goal ≠ ""
      ∧ (String.length phoneNumber ≤ 20)%nat
      ∧ (String.length goal ≤ 1000)%nat
      ∧ (∀ c, body_context data = Some (ContextText c) →
           (String.length c ≤ 5000)%nat)
      ∧ (∀ value, body_context data = Some (ContextOther value) →
           json_truthy value = true → json_longer value 5000 = false).
Proof.
  apply (@handleCallRequest_guards Demo.healthy (DemoHttp.parseWith DemoHttp.seven)
           DemoHttp.call Demo.server TwilioCallSetup).
  vm_compute. apply list_elem_of_here.
Defined.

(** A context that is no string: the number 7 and an array of 5000 items
    reach the preflight checks and the session; an array of 5001 items is
    refused as too long. *)
Example context_not_a_string_run :
  statusCodes (@handleCallRequest Demo.healthy (DemoHttp.parseWith DemoHttp.seven)
                 DemoHttp.call Demo.server).2 = [200]
  ∧ sessions (@handleCallRequest Demo.healthy (DemoHttp.parseWith DemoHttp.seven)
                DemoHttp.call Demo.server).1 !! "call-2"
    = Some (@newSession Demo.healthy "15551234567" "ask about checkout time"
              (Some (ContextOther DemoHttp.seven)))
  ∧ statusCodes (@handleCallRequest Demo.healthy
                   (DemoHttp.parseWith (DemoHttp.arrayOf 5000))
                   DemoHttp.call Demo.server).2 = [200]
  ∧ @handleCallRequest Demo.healthy (DemoHttp.parseWith (DemoHttp.arrayOf (S 5000)))
      DemoHttp.call Demo.server
    = (Demo.server,
       [Core (Respond 400 "application/json" (ErrorBody "context too long"))]).
Proof. repeat split; vm_compute; reflexivity. Qed.

Lemma handleCallRequest_rejected_clean_witness :
  (@handleCallRequest Demo.healthy DemoHttp.parse longGoalCall Demo.server).1
    = Demo.server
  ∧ ∃ status error,
      coreEffects (@handleCallRequest Demo.healthy DemoHttp.parse longGoalCall
                     Demo.server).2
      = [Respond status "application/json" (ErrorBody error)].
Proof.
  apply (@handleCallRequest_rejected_clean Demo.healthy DemoHttp.parse
           longGoalCall Demo.server).
  intros kind Hin. vm_compute in Hin.
  inversion Hin as [|? ? ? Hrest]. inversion Hrest.
Defined.

Example long_goal_run :
  @handleCallRequest Demo.healthy DemoHttp.parse longGoalCall Demo.server
  = (Demo.server,
     [Core (Respond 400 "application/json" (ErrorBody "goal too long"))])
  ∧ (@handleCallRequest Demo.healthy DemoHttp.parse
       (DemoHttp.request "POST" "/call" [DemoHttp.filler 1000]) Demo.server).1
    ≠ Demo.server.
Proof.
  split; [vm_compute; reflexivity|].
  intros Heq. apply (f_equal (λ st, sessions st !! "call-2")) in Heq.
  vm_compute in Heq. discriminate.
Qed.

Lemma post_call_success_witness :
  let result := @handleCallRequest Demo.healthy DemoHttp.parse DemoHttp.call
                  Demo.server in
  statusCodes result.2 = [200]
  ∧ RespondWith 200 (Some "application/json") (InitiatingBody "call-2") ∈ result.2
  ∧ sessions result.1 !! "call-2"
    = Some (@newSession Demo.healthy "15551234567" "ask about checkout time" None)
  ∧ @handleCallStatusCheck "call-2" result.1
    = (result.1,
       [RespondWith 200 (Some "application/json")
          (SessionStateBody
             (@newSession Demo.healthy "15551234567" "ask about checkout time" None))]).
Proof.
  apply (@post_call_success Demo.healthy DemoHttp.parse DemoHttp.call Demo.server
           "15551234567" "ask about checkout time" "CA123" None).
  - exact demo_call_wellFormed.
  - repeat constructor.
  - reflexivity.
Defined.

Lemma post_call_preflight_failure_witness :
  ∃ failed,
    failed ∈ @preflights deepgramDown Demo.server "ask about checkout time" None
    ∧ ok failed = false
    ∧ @handleCallRequest deepgramDown DemoHttp.parse DemoHttp.call Demo.server
      = (Demo.server, (Core <$> preflightCalls) ++
           [Core (Respond
                    (if includes "preflight" (toLowerCase (message failed))
                     then 400 else 500)
                    "application/json" (ErrorBody (message failed)))]).
Proof.
  apply (@post_call_preflight_failure deepgramDown DemoHttp.parse DemoHttp.call
           Demo.server "15551234567" "ask about checkout time" None).
  - exact demo_call_wellFormed.
  - intros Hall. apply Forall_cons in Hall as [_ Hall].
    apply Forall_cons in Hall as [Hdeepgram _]. discriminate Hdeepgram.
Defined.

Example preflight_failure_is_400 :
  @handleCallRequest deepgramDown DemoHttp.parse DemoHttp.call Demo.server
  = (Demo.server, (Core <$> preflightCalls) ++
       [Core (Respond 400 "application/json"
                (ErrorBody "deepgram preflight failed"))]).
Proof. vm_compute. reflexivity. Qed.

(** ** Webhooks beyond the signature *)

Section WebhookReplies.
Context `{Env}.

Lemma resolved_unknown req st :
  (∀ c, whenTruthy (req_callId req) = Some c → sessions st !! c = None) →
  resolved req st = None.
Proof.
  intros Hunknown. unfold resolved.
  destruct (whenTruthy (req_callId req)) as [c|]; [by apply Hunknown|done].
Qed.

(** X10: a status callback that passes the signature guard and names no
    call of the table (no [callId], an empty one, or one the table does not
    hold) is accepted with 200 [received], whatever status it reports, and
    does nothing else: no session method is called, nothing is broadcast,
    the server state is unchanged. *)
Theorem handleTwilioStatus_unknown_call (req : WebhookRequest) (st : CallServer) :
  signatureRejected (options st) req = false →
  (∀ c, whenTruthy (req_callId req) = Some c → sessions st !! c = None) →
  handleTwilioStatus req st
  = {| val := inr (); post := st;
       eff := [Respond 200 "application/json" ReceivedBody] |}.
Proof.
  intros Hrej Hunknown. rewrite (handleTwilioStatus_accepted _ _ Hrej).
  by rewrite (resolved_unknown _ _ Hunknown).
Qed.

(** X11: the voice webhook never changes the server state, never calls a
    session and never sends to a control client.  Past the signature guard
    its answer is always 200 with call-control markup: the media-stream
    markup for the call identifier of the query when the table holds it, and
    the apology markup when the identifier is missing, empty or unknown. *)
Theorem handleTwilioVoice_reply (req : WebhookRequest) (st : CallServer) :
  let r := handleTwilioVoice req st in
  post r = st
  ∧ val r = inr ()
  ∧ (∀ session call, SessionInvoke session call ∉ eff r)
  ∧ (∀ ws msg, WsSend ws msg ∉ eff r)
  ∧ (signatureRejected (options st) req = false →
     (∀ c, req_callId req = Some c → c ≠ "" → is_Some (sessions st !! c) →
        eff r = [Respond 200 "application/xml"
                   (TwimlBody (generateMediaStreamsTwiml (config (options st)) c))])
     ∧ ((∀ c, whenTruthy (req_callId req) = Some c → sessions st !! c = None) →
        eff r = [Respond 200 "application/xml"
                   (TwimlBody (generateErrorTwiml
                      "Sorry, this call cannot be connected. Please try again later."))])).
Proof.
  cbv zeta. destruct (signatureRejected (options st) req) eqn:Hrej.
  { rewrite (handleTwilioVoice_rejected _ _ Hrej). cbn [post val eff].
    split_and!; try done; intros ? ? Hin; unfold rejection in Hin; trace_cases Hin. }
  rewrite (handleTwilioVoice_accepted _ _ Hrej). cbn [post val eff].
  split_and!; try done; try (intros ? ? Hin; trace_cases Hin).
  intros _. split.
  - intros c Hc Hne Hknown. unfold whenTruthy, truthy. rewrite Hc.
    apply String.eqb_neq in Hne. rewrite Hne. cbn [negb].
    by rewrite bool_decide_eq_true_2.
  - intros Hunknown. destruct (whenTruthy (req_callId req)) as [c|]; [|done].
    rewrite bool_decide_eq_false_2; [done|].
    rewrite (Hunknown c eq_refl). by intros [? ?].
Qed.

End WebhookReplies.

Lemma handleTwilioStatus_unknown_call_witness :
  @handleTwilioStatus Demo.healthy
    {| req_url := "/twilio/status?callId=call-9";
       req_signature := Some "valid";
       req_callId := Some "call-9";
       req_body := "CallStatus=completed" |} Demo.server
  = {| val := inr (); post := Demo.server;
       eff := [Respond 200 "application/json" ReceivedBody] |}.
Proof.
  apply (@handleTwilioStatus_unknown_call Demo.healthy).
  - reflexivity.
  - intros c Hc. vm_compute in Hc. injection Hc as <-. vm_compute. reflexivity.
Defined.

(** ** The control plane beyond the unknown call *)

Lemma try_catch_run {A} (m : M A) (handler : Thrown → M A) st :
  try_catch m handler st
  = match val (m st) with
    | inl e =>
        {| val := val (handler e (post (m st)));
           post := post (handler e (post (m st)));
           eff := eff (m st) ++ eff (handler e (post (m st))) |}
    | inr a => m st
    end.
Proof.
  unfold try_catch. destruct (m st) as [[e|a] st' t]; cbn; [|done].
  by destruct (handler e st').
Qed.

Lemma bind_run {A B} (m : M A) (k : A → M B) st :
  (m ≫= k) st
  = match val (m st) with
    | inl e => {| val := inl e; post := post (m st); eff := eff (m st) |}
    | inr a =>
        {| val := val (k a (post (m st)));
           post := post (k a (post (m st)));
           eff := eff (m st) ++ eff (k a (post (m st))) |}
    end.
Proof.
  unfold mbind, M_bind. destruct (m st) as [[e|a] st' t]; cbn; [done|].
  by destruct (k a st').
Qed.

Section ControlPlane.
Context `{Env}.

(** [initiateCallInternal] sends control clients nothing but [call_started]. *)
Lemma initiateCallInternal_sends phoneNumber goal context st ws msg :
  WsSend ws msg ∈ eff (initiateCallInternal phoneNumber goal context st) →
  ∃ callId callSid, msg = call_started callId callSid.
Proof.
  destruct (find (λ result, negb (ok result)) (preflights st goal context))
    as [failed|] eqn:Hfind.
  - rewrite (initiateCallInternal_failed _ _ _ _ _ Hfind). cbn [eff].
    intros Hin. trace_cases Hin.
  - pose proof (initiateCallInternal_passed phoneNumber goal context st Hfind) as Hrun.
    cbv zeta in Hrun. rewrite Hrun.
    destruct (initiateCall _ _ _) as [err|callSid]; cbn [eff]; intros Hin.
    + trace_cases Hin.
    + apply elem_of_app in Hin as [Hin|Hin]; [trace_cases Hin|].
      apply elem_of_app in Hin as [Hin|Hin]; [trace_cases Hin|].
      apply list_elem_of_fmap in Hin as (c & [= -> ->] & _). by do 2 eexists.
Qed.

(** What [handleControlMessage] sends: [call_started] to anyone, an error
    to the sender only. *)
Lemma handleControlMessage_sends ws msg st c reply :
  WsSend c reply ∈ eff (handleControlMessage ws msg st) →
  (∃ callId callSid, reply = call_started callId callSid) ∨ c = ws.
Proof.
  destruct msg as [phoneNumber goal context|callId text|callId|];
    cbn [handleControlMessage].
  - rewrite bind_run.
    destruct (val (initiateCallInternal phoneNumber goal context st)); cbn [eff].
    + intros Hin. left. by eapply initiateCallInternal_sends.
    + rewrite app_nil_r. intros Hin. left. by eapply initiateCallInternal_sends.
  - unfold awaitSession. run. destruct (sessions st !! callId) as [session|]; cbn.
    + destruct (speakOutcome session text); cbn; intros Hin; trace_cases Hin.
    + intros Hin. trace_cases Hin. injection Hin as -> _. by right.
  - unfold awaitSession. run. destruct (sessions st !! callId) as [session|]; cbn.
    + destruct (hangupOutcome session); cbn; intros Hin; trace_cases Hin.
    + intros Hin. trace_cases Hin.
  - cbn. intros Hin. trace_cases Hin.
Qed.

(** X12: the [message] listener of a control socket never throws.  Whatever
    goes wrong while a frame is handled (it does not parse, the preflight
    gate or the origination fails, [speak] or [hangup] rejects) ends as one
    error message to the socket the frame came from; no other control
    client is ever sent an error, and a frame that does not parse changes
    nothing. *)
Theorem onControlMessage_contains_errors (ws : WebSocket)
  (data : Thrown + ClientMessage) (st : CallServer) :
  let r := onControlMessage ws data st in
  val r = inr ()
  ∧ (∀ c callId text, WsSend c (error_message callId text) ∈ eff r → c = ws)
  ∧ (∀ msg err, data = inr msg → val (handleControlMessage ws msg st) = inl err →
       eff r = eff (handleControlMessage ws msg st)
               ++ [WsSend ws (error_message None (messageOr "Invalid message" err))])
  ∧ (∀ err, data = inl err →
       r = {| val := inr (); post := st;
              eff := [WsSend ws (error_message None
                                   (messageOr "Invalid message" err))] |}).
Proof.
  cbv zeta. unfold onControlMessage. rewrite try_catch_run.
  destruct data as [err|msg].
  { cbn. split_and!; try done.
    - intros c callId text Hin. trace_cases Hin. by injection Hin as ->.
    - by intros ? [= ->]. }
  destruct (val (handleControlMessage ws msg st)) as [err|[]] eqn:Hval; cbn [val eff].
  - split_and!; try done.
    + intros c callId text Hin. apply elem_of_app in Hin as [Hin|Hin].
      * apply handleControlMessage_sends in Hin as [(? & ? & ?)|?]; done.
      * cbn in Hin. trace_cases Hin. by injection Hin as ->.
    + intros ? ? [= <-]. rewrite Hval. by intros [= ->].
  - split_and!; try done.
    + intros c callId text Hin.
      apply handleControlMessage_sends in Hin as [(? & ? & ?)|?]; done.
    + intros ? ? [= <-]. by rewrite Hval.
Qed.

(** X13: the control-client set is a set.  Connecting a socket twice is
    connecting it once; after its [close] (or [error]) event the socket is
    out of the set, every other client stays as it was, and no broadcast
    reaches it any more, even if its socket still reports OPEN. *)
Theorem control_client_set (ws : WebSocket) (st : CallServer) :
  ws ∈ controlClients (post (handleControlConnection ws st))
  ∧ post (handleControlConnection ws (post (handleControlConnection ws st)))
    = post (handleControlConnection ws st)
  ∧ (ws ∉ controlClients (post (onControlClose ws st)))
  ∧ post (onControlError ws st) = post (onControlClose ws st)
  ∧ (∀ c, c ≠ ws →
       (c ∈ controlClients (post (onControlClose ws st)) ↔ c ∈ controlClients st)
       ∧ (c ∈ controlClients (post (handleControlConnection ws st))
          ↔ c ∈ controlClients st))
  ∧ (∀ msg, received ws (eff (broadcastToControl msg (post (onControlClose ws st))))
            = [])
  ∧ sessions (post (handleControlConnection ws st)) = sessions st
  ∧ sessions (post (onControlClose ws st)) = sessions st.
Proof.
  unfold handleControlConnection, onControlClose, onControlError. run.
  unfold set_add, set_delete.
  split_and!; try done.
  - destruct (decide (ws ∈ controlClients st)); [done|].
    apply elem_of_app. right. by left.
  - unfold with_controlClients. cbn. f_equal.
    destruct (decide (ws ∈ controlClients st)) as [Hin|Hnotin].
    + by rewrite decide_True.
    + rewrite decide_True; [done|]. apply elem_of_app. right. by left.
  - intros Hin. apply list_elem_of_filter in Hin as [Hne _]. done.
  - intros c Hne. split.
    + rewrite list_elem_of_filter. tauto.
    + destruct (decide (ws ∈ controlClients st)); [done|].
      rewrite elem_of_app, list_elem_of_singleton. tauto.
  - intros msg. rewrite broadcastToControl_run. cbn [eff].
    apply received_sends_other. cbn.
    intros Hin. apply list_elem_of_filter in Hin as [_ Hin].
    apply list_elem_of_filter in Hin as [Hne _]. done.
Qed.

(** X14: once a session has signalled [ended], its call identifier is out
    of the table and every other entry is as it was; [call_ended] is emitted
    for it; and from then on the identifier is unknown to the server:
    [speak] at it gets [Call not found], a status query gets 404. *)
Theorem ended_call_is_unknown (callId text : string) (ws : WebSocket)
  (st : CallServer) :
  let r := onSessionEnded callId st in
  sessions (post r) !! callId = None
  ∧ (∀ key, key ≠ callId → sessions (post r) !! key = sessions st !! key)
  ∧ controlClients (post r) = controlClients st
  ∧ eff r = [Emit (ev_call_ended callId)]
  ∧ onControlMessage ws (inr (speak callId text)) (post r)
    = {| val := inr (); post := post r;
         eff := [WsSend ws (error_message (Some callId) "Call not found")] |}
  ∧ handleCallStatusCheck callId (post r)
    = (post r, [Core (Respond 404 "application/json" (ErrorBody "Call not found"))]).
Proof.
  cbv zeta. unfold onSessionEnded. run.
  assert (Hgone : delete callId (sessions st) !! callId = None)
    by apply lookup_delete_eq.
  split_and!; try done.
  - intros key Hne. by apply lookup_delete_ne.
  - apply speak_unknown_call. exact Hgone.
  - unfold handleCallStatusCheck, respondError. cbn. by rewrite Hgone.
Qed.

End ControlPlane.

Lemma callListeners_run (listeners : list (option Thrown)) st :
  callListeners listeners st
  = {| val := match firstThrown listeners with
              | Some thrown => inl thrown
              | None => inr ()
              end;
       post := st; eff := [] |}.
Proof.
  induction listeners as [|[thrown|] listeners IH]; [done|done|exact IH].
Qed.

(** The whole run of the failure continuation: the session is deleted and
    the error emitted; the socket is closed only if the emit returns. *)
Lemma onMediaInitFailed_run listeners ws callId err st :
  let e := match err with JsError _ => err | JsValue v => JsError v end in
  let thrown := match listeners with [] => Some e | _ => firstThrown listeners end in
  onMediaInitFailed listeners ws callId err st
  = {| val := match thrown with Some t => inl t | None => inr () end;
       post := with_sessions (delete callId) st;
       eff := [Console LogError "[Media] Failed to initialize:"; Emit (ev_error e)]
              ++ match thrown with
                 | Some _ => []
                 | None => [WsClose ws 1011 "Failed to initialize"]
                 end |}.
Proof.
  cbv zeta. unfold onMediaInitFailed, emitError. run.
  destruct listeners as [|listener listeners]; [done|].
  rewrite callListeners_run. by destruct (firstThrown (listener :: listeners)).
Qed.

(** X15: when the media bridge of a session fails to initialise, the
    session is taken out of the table (every other entry stays) and the
    server calls [emit('error', e)] on itself with an [Error]; no control
    client is sent anything.  Whether the media socket is then closed
    depends on who listens: the class registers no listener for ['error'],
    and an emitter without one throws the error it is asked to emit.  So
    with no listener registered by the owner of the server (the server as
    [createCallServer] returns it) the continuation ends by that exception
    and the socket is not closed; it is closed, with code 1011, exactly when
    the emit returns, that is, when there are listeners and none of them
    throws. *)
Theorem onMediaInitFailed_cleanup (listeners : list (option Thrown))
  (ws : WebSocket) (callId : string) (err : Thrown) (st : CallServer) :
  let r := onMediaInitFailed listeners ws callId err st in
  sessions (post r) !! callId = None
  ∧ (∀ key, key ≠ callId → sessions (post r) !! key = sessions st !! key)
  ∧ controlClients (post r) = controlClients st
  ∧ (∃ text, Emit (ev_error (JsError text)) ∈ eff r)
  ∧ (∀ c msg, WsSend c msg ∉ eff r)
  ∧ (listeners = [] →
     (∃ text, val r = inl (JsError text)) ∧ closeCodes (eff r) = [])
  ∧ (listeners ≠ [] → Forall (λ listener, listener = None) listeners →
     val r = inr () ∧ closeCodes (eff r) = [1011])
  ∧ (∀ thrown, val r = inl thrown → closeCodes (eff r) = [])
  ∧ (val r = inr () →
     closeCodes (eff r) = [1011]
     ∧ listeners ≠ [] ∧ Forall (λ listener, listener = None) listeners).
Proof.
  cbv zeta. rewrite onMediaInitFailed_run. cbv zeta. cbn [val post eff].
  assert (Hquiet : ∀ ls : list (option Thrown),
            firstThrown ls = None ↔ Forall (λ listener, listener = None) ls).
  { induction ls as [|[thrown|] ls IH]; cbn [firstThrown].
    - split; [constructor|done].
    - split; [done|]. intros Hall. apply Forall_cons in Hall as [Hnone _]. done.
    - rewrite IH. split; [by constructor|]. intros Hall.
      by apply Forall_cons in Hall as [_ ?]. }
  split_and!.
  - apply lookup_delete_eq.
  - intros key Hne. by apply lookup_delete_ne.
  - done.
  - destruct err as [text|value]; eexists; right; left.
  - intros c msg Hin. apply elem_of_app in Hin as [Hin|Hin]; [trace_cases Hin|].
    destruct (match listeners with [] => _ | _ => _ end); trace_cases Hin.
  - intros ->. split; [|done]. destruct err as [text|value]; by eexists.
  - intros Hsome Hall. apply Hquiet in Hall.
    destruct listeners as [|listener listeners]; [done|]. by rewrite Hall.
  - intros thrown Hval.
    destruct (match listeners with [] => _ | _ => _ end); [done|discriminate].
  - intros Hval. destruct listeners as [|listener listeners]; [discriminate|].
    destruct (firstThrown (listener :: listeners)) eqn:Hfirst; [discriminate|].
    split; [done|]. split; [done|]. by apply Hquiet.
Qed.

(** The server as [createCallServer] returns it has no ['error'] listener:
    the failure of a media bridge removes the session and leaves the socket
    open.  With a listener that returns, the socket is closed. *)
Example media_failure_run :
  let alone := @onMediaInitFailed [] 7 "call-1" (JsError "bridge failed") Demo.server in
  let heard :=
    @onMediaInitFailed [None] 7 "call-1" (JsValue "bridge failed") Demo.server in
  val alone = inl (JsError "bridge failed")
  ∧ closeCodes (eff alone) = []
  ∧ sessions (post alone) !! "call-1" = None
  ∧ val heard = inr ()
  ∧ closeCodes (eff heard) = [1011]
  ∧ Emit (ev_error (JsError "bridge failed")) ∈ eff heard.
Proof.
  cbv zeta. split_and!; try (vm_compute; reflexivity).
  right. left.
Qed.

(** ** A call from start to end, and the server over time *)

Lemma with_sessions_id st : with_sessions (λ table, table) st = st.
Proof. by destruct st. Qed.

(** X16: a call placed with a fresh identifier adds exactly one entry to
    the table, the new session under the new identifier, and leaves every
    other entry alone; when that session signals [ended] the server state is
    again what it was before the call. *)
Theorem call_round_trip `{Env} (phoneNumber goal callSid : string)
  (context : option ContextValue) (st : CallServer) :
  Forall (λ result, ok result = true) (preflights st goal context) →
  initiateCall (config (options st)) (formatPhoneNumber phoneNumber) randomUUID
    = inr callSid →
  sessions st !! randomUUID = None →
  let r := initiateCallInternal phoneNumber goal context st in
  val r = inr randomUUID
  ∧ sessions (post r) !! randomUUID = Some (newSession phoneNumber goal context)
  ∧ (∀ key, key ≠ randomUUID → sessions (post r) !! key = sessions st !! key)
  ∧ size (sessions (post r)) = S (size (sessions st))
  ∧ post (onSessionEnded randomUUID (post r)) = st.
Proof.
  intros Hok Horig Hfresh r. subst r.
  pose proof (initiateCallInternal_passed phoneNumber goal context st
                (find_failed_None _ Hok)) as Hrun.
  cbv zeta in Hrun. rewrite Hrun, Horig. clear Hrun. cbn [val post].
  split_and!; try done.
  - cbn. apply lookup_insert_eq.
  - intros key Hne. cbn. by apply lookup_insert_ne.
  - cbn. by apply map_size_insert_None.
  - unfold onSessionEnded. run. unfold with_sessions. cbn.
    rewrite delete_insert_eq, delete_id by done. by destruct st.
Qed.

Lemma call_round_trip_witness :
  let r := @initiateCallInternal Demo.healthy "15551234567"
             "ask about checkout time" None Demo.server in
  val r = inr "call-2"
  ∧ sessions (post r) !! "call-2"
    = Some (@newSession Demo.healthy "15551234567" "ask about checkout time" None)
  ∧ (∀ key, key ≠ "call-2" → sessions (post r) !! key = sessions Demo.server !! key)
  ∧ size (sessions (post r)) = S (size (sessions Demo.server))
  ∧ post (@onSessionEnded "call-2" (post r)) = Demo.server.
Proof.
  apply (@call_round_trip Demo.healthy "15551234567" "ask about checkout time"
           "CA123" None Demo.server).
  - repeat constructor.
  - reflexivity.
  - vm_compute. reflexivity.
Defined.

Section Invariant.

Context `{Env}.

Lemma initiateCallInternal_changed phoneNumber goal context st :
  changed st (post (initiateCallInternal phoneNumber goal context st)).
Proof.
  destruct (initiateCallInternal_post phoneNumber goal context st) as [->|[->| ->]].
  - constructor.
  - apply (changed_inserted st (newSession phoneNumber goal context)).
  - constructor.
Qed.

Lemma handleControlMessage_changed ws msg st :
  changed st (post (handleControlMessage ws msg st)).
Proof.
  destruct msg as [phoneNumber goal context|callId text|callId|];
    cbn [handleControlMessage].
  - rewrite bind_run.
    destruct (val (initiateCallInternal phoneNumber goal context st));
      cbn [post]; apply initiateCallInternal_changed.
  - unfold awaitSession. run. destruct (sessions st !! callId) as [session|]; cbn.
    + destruct (speakOutcome session text); cbn; constructor.
    + constructor.
  - unfold awaitSession. run. destruct (sessions st !! callId) as [session|]; cbn.
    + destruct (hangupOutcome session); cbn; constructor.
    + constructor.
  - constructor.
Qed.

Lemma onControlMessage_changed ws data st :
  changed st (post (onControlMessage ws data st)).
Proof.
  unfold onControlMessage. rewrite try_catch_run.
  destruct data as [err|msg]; [constructor|].
  pose proof (handleControlMessage_changed ws msg st) as Hchanged.
  by destruct (val (handleControlMessage ws msg st)).
Qed.

Lemma onMediaMessage_post ws flag data st :
  post (onMediaMessage ws flag data st) = st.
Proof.
  unfold onMediaMessage. destruct data as [e|msg]; run; [done|].
  destruct (bool_decide (event msg = Some "start") && negb flag); [|done].
  destruct (whenTruthy (start_callId msg)) as [c|]; cbn; [|done].
  by destruct (sessions st !! c).
Qed.

Lemma handleHttpRequest_changed parseCallRequest req st result :
  handleHttpRequest parseCallRequest req st = inr result → changed st result.1.
Proof.
  unfold handleHttpRequest. destruct (http_location req) as [err|url]; [done|].
  cbv zeta. intros [= <-].
  destruct (String.eqb (default "GET" (http_method req)) "OPTIONS"); [constructor|].
  assert (Hroute : ∀ p : CallServer * list FrontEffect,
            changed st p.1 →
            changed st (let (st', out) := p in (st', corsHeaders ++ out)).1).
  { by intros [st' out]. }
  apply Hroute.
  destruct (_ && String.eqb (url_pathname url) "/health"); [constructor|].
  destruct (_ && String.eqb (url_pathname url) "/status"); [constructor|].
  destruct (_ && String.eqb (url_pathname url) "/call").
  { unfold handleCallRequest. rewrite receiveBody_run.
    destruct (MAX_BODY_SIZE <? _)%N; [constructor|].
    destruct (handleCallRequestEnd_cases parseCallRequest
                (wholeBody (http_chunks req)) st)
      as [(status & error & ->)|(data & phoneNumber & goal & Hvalid)];
      [constructor|].
    destruct Hvalid as (_ & _ & _ & _ & _ & _ & _ & _ & ->). cbv zeta.
    pose proof (initiateCallInternal_changed phoneNumber goal (body_context data) st).
    by destruct (val (initiateCallInternal phoneNumber goal (body_context data) st)). }
  destruct (_ && String.eqb (url_pathname url) "/twilio/voice").
  { rewrite receiveBody_run. destruct (MAX_BODY_SIZE <? _)%N; [constructor|].
    unfold lift. cbn [fst].
    destruct (handleTwilioVoice_status
                (webhookRequest req url (wholeBody (http_chunks req))) st) as [-> _].
    constructor. }
  destruct (_ && String.eqb (url_pathname url) "/twilio/status").
  { rewrite receiveBody_run. destruct (MAX_BODY_SIZE <? _)%N; [constructor|].
    unfold lift. cbn [fst].
    destruct (handleTwilioStatus_status
                (webhookRequest req url (wholeBody (http_chunks req))) st) as [-> _].
    constructor. }
  destruct (_ && String.prefix "/status/" (url_pathname url)).
  { unfold handleCallStatusCheck. destruct (sessions st !! _); constructor. }
  constructor.
Qed.

Lemma step_changed input st : changed st (step input st).
Proof.
  destruct input; cbn [step].
  - destruct (handleHttpRequest parseCallRequest req st) as [err|result] eqn:Hrun;
      [constructor|by apply (handleHttpRequest_changed _ _ _ _ Hrun)].
  - unfold handleControlConnection. run. constructor.
  - unfold onControlClose. run. constructor.
  - unfold onControlError. run. constructor.
  - apply onControlMessage_changed.
  - rewrite onMediaMessage_post. constructor.
  - rewrite onMediaInitFailed_run. constructor.
  - unfold onSessionMessage. rewrite broadcastToControl_run. constructor.
  - unfold onSessionEnded. run. constructor.
Qed.

End Invariant.

Lemma changed_consistent st st' :
  changed st st' → consistent st → consistent st' ∧ options st' = options st.
Proof.
  intros Hchanged [Hnd Hkeys]. destruct Hchanged; (split; [split|done]); cbn; try done.
  - intros key found Hlookup.
    destruct (decide (callId session = key)) as [<-|Hne].
    + rewrite lookup_insert_eq in Hlookup. by injection Hlookup as <-.
    + rewrite lookup_insert_ne in Hlookup by done. by apply Hkeys.
  - intros k found Hlookup. apply lookup_delete_Some in Hlookup as [_ Hlookup].
    by apply Hkeys.
  - by apply set_add_NoDup.
  - by apply set_delete_NoDup.
Qed.

Lemma serverRun_consistent_from inputs st :
  consistent st →
  consistent (serverRun inputs st) ∧ options (serverRun inputs st) = options st.
Proof.
  revert st. induction inputs as [|[env input] inputs IH]; intros st Hst; [done|].
  cbn [serverRun].
  destruct (changed_consistent st (@step env input st) (@step_changed env input st) Hst)
    as [Hnext Hopts].
  destruct (IH _ Hnext) as [Hend Hopts']. split; [done|congruence].
Qed.

(** X17: whatever happens to a server after its construction (requests,
    control connections and frames, media frames and failures, session
    events, in any order and under any environment), the client set never
    holds a socket twice, every session of the table is filed under its own
    call identifier, and the options are the ones it was constructed with. *)
Theorem serverRun_consistent (opts : CallServerOptions) (inputs : list (Env * Input)) :
  consistent (serverRun inputs (newServer opts))
  ∧ options (serverRun inputs (newServer opts)) = opts.
Proof.
  apply (serverRun_consistent_from inputs (newServer opts)).
  split; [apply NoDup_nil_2|]. intros key session Hlookup.
  cbn in Hlookup. by rewrite lookup_empty in Hlookup.
Qed.

(** ** Status callbacks for a live call *)

(** X18: on a consistent server, a status callback that passes the
    signature guard and names a live call does this.  [ringing]: the
    session's [updateStatus] is called and [call_ringing], carrying the call
    identifier of the query, goes to every open control client.  A terminal
    status ([completed], [busy], [failed], [no-answer]): [updateStatus] is
    called with that status and nothing is broadcast.  In each case the
    answer is 200 and the table is untouched: the handler itself never
    removes a session. *)
Theorem handleTwilioStatus_live_call `{Env} (req : WebhookRequest)
  (st : CallServer) (c : string) (session : SessionHandle) :
  consistent st →
  signatureRejected (options st) req = false →
  req_callId req = Some c → c ≠ "" →
  sessions st !! c = Some session →
  let r := handleTwilioStatus req st in
  let status := parseWebhookBody (req_body req) !! "CallStatus" in
  post r = st
  ∧ (status = Some "ringing" →
     eff r = SessionInvoke session (updateStatus "ringing")
             :: ((λ client, WsSend client (call_ringing c))
                   <$> filter isOpen (controlClients st))
             ++ [Respond 200 "application/json" ReceivedBody])
  ∧ (∀ terminal, status = Some terminal →
       terminal ∈ ["completed"; "busy"; "failed"; "no-answer"] →
       eff r = [SessionInvoke session (updateStatus terminal);
                Respond 200 "application/json" ReceivedBody]).
Proof.
  intros [_ Hkeys] Hrej Hc Hne Hlookup r status. subst r status.
  rewrite (handleTwilioStatus_accepted _ _ Hrej). cbn [post eff].
  assert (Hresolved : resolved req st = Some session).
  { unfold resolved, whenTruthy, truthy. rewrite Hc.
    apply String.eqb_neq in Hne. by rewrite Hne. }
  rewrite Hresolved, applyCallStatus_run. cbn [eff].
  rewrite (Hkeys c session Hlookup).
  split_and!; [done| |].
  - intros ->. done.
  - intros terminal -> Hin. trace_cases Hin; subst terminal; done.
Qed.

Lemma demo_server_consistent : consistent Demo.server.
Proof.
  split.
  - apply (bool_decide_unpack _). vm_compute. exact I.
  - intros key session Hlookup.
    destruct (decide (key = "call-1")) as [->|Hne].
    + vm_compute in Hlookup. by injection Hlookup as <-.
    + unfold Demo.server in Hlookup. cbn in Hlookup.
      by rewrite lookup_singleton_ne in Hlookup.
Defined.

Lemma handleTwilioStatus_live_call_witness :
  let req := ringingCallback (Some "valid") in
  let r := @handleTwilioStatus Demo.healthy req Demo.server in
  let status := @parseWebhookBody Demo.healthy (req_body req) !! "CallStatus" in
  post r = Demo.server
  ∧ (status = Some "ringing" →
     eff r = SessionInvoke Demo.session1 (updateStatus "ringing")
             :: ((λ client, WsSend client (call_ringing "call-1"))
                   <$> filter (@isOpen Demo.healthy) (controlClients Demo.server))
             ++ [Respond 200 "application/json" ReceivedBody])
  ∧ (∀ terminal, status = Some terminal →
       terminal ∈ ["completed"; "busy"; "failed"; "no-answer"] →
       eff r = [SessionInvoke Demo.session1 (updateStatus terminal);
                Respond 200 "application/json" ReceivedBody]).
Proof.
  apply (@handleTwilioStatus_live_call Demo.healthy (ringingCallback (Some "valid"))
           Demo.server "call-1" Demo.session1).
  - exact demo_server_consistent.
  - reflexivity.
  - reflexivity.
  - discriminate.
  - vm_compute. reflexivity.
Defined.

(** * Local dependency preflight checks *)

Module LocalDepsFacts.
Import LocalDeps.

Lemma checkCommand_ok (spawnSync : Spawn) command args :
  check_ok (checkCommand spawnSync command args) = true
  ↔ succeeded (spawnSync command args 4000%Z).
Proof.
  unfold checkCommand, succeeded.
  destruct (spawnSync command args 4000%Z) as [[e|] [[|exit|exit]|] out]; cbn.
  all: try destruct (bool_decide (code e = Some "ENOENT")); cbn.
  all: split; [intros ?|intros [? ?]]; try done.
Qed.

Lemma checkFfmpegMp3Decode_ok (spawnSync : Spawn) :
  check_ok (checkFfmpegMp3Decode spawnSync) = true
  ↔ succeeded (spawnSync "ffmpeg" decodeArgs 6000%Z).
Proof.
  unfold checkFfmpegMp3Decode, succeeded.
  destruct (spawnSync "ffmpeg" decodeArgs 6000%Z) as [[e|] [[|exit|exit]|] out]; cbn.
  all: split; [intros ?|intros [? ?]]; try done.
Qed.

(** X19: the ffmpeg check passes exactly when both of its runs of ffmpeg
    (the version query and the MP3 decode smoke test) start without error
    and exit with status 0; the ngrok check passes exactly when its one run
    of ngrok does. *)
Theorem preflight_ok_iff (spawnSync : Spawn) :
  (ok (preflightFfmpeg spawnSync) = true
   ↔ succeeded (spawnSync "ffmpeg" ["-version"] 4000%Z)
     ∧ succeeded (spawnSync "ffmpeg" decodeArgs 6000%Z))
  ∧ (ok (preflightNgrok spawnSync) = true
     ↔ succeeded (spawnSync "ngrok" ["version"] 4000%Z)).
Proof.
  split.
  - rewrite <- checkCommand_ok, <- checkFfmpegMp3Decode_ok. unfold preflightFfmpeg.
    destruct (check_ok (checkCommand spawnSync "ffmpeg" ["-version"])).
    + destruct (check_ok (checkFfmpegMp3Decode spawnSync)); cbn; tauto.
    + destruct (bool_decide _); cbn;
        (split; [discriminate|intros [? _]; discriminate]).
  - rewrite <- checkCommand_ok. unfold preflightNgrok.
    destruct (check_ok (checkCommand spawnSync "ngrok" ["version"])); [done|].
    by destruct (bool_decide _).
Qed.

(** X20: when ffmpeg cannot be started at all, the decode test is not
    consulted and the message depends on the start error alone: [not
    installed or not in PATH] for the error code ENOENT (and for an error
    whose message is literally [not_found]), and otherwise [check could not
    run] with the message of the error. *)
Theorem preflightFfmpeg_start_error (spawnSync : Spawn) (e : SpawnError) :
  error (spawnSync "ffmpeg" ["-version"] 4000%Z) = Some e →
  preflightFfmpeg spawnSync
  = {| ok := false; provider := "local"; dependency := ffmpeg;
       message :=
         if bool_decide (code e = Some "ENOENT" ∨ errorMessage e = "not_found")
         then "Local preflight failed: ffmpeg is not installed or not in PATH. Install ffmpeg and retry."
         else "Local preflight failed: ffmpeg check could not run ("
              +:+ errorMessage e +:+ ")." |}.
Proof.
  intros Herror. unfold preflightFfmpeg, checkCommand. rewrite Herror.
  destruct (decide (code e = Some "ENOENT")) as [Hcode|Hcode].
  - rewrite (bool_decide_eq_true_2 _ Hcode). cbn [check_ok reason].
    rewrite (bool_decide_eq_true_2 (Some "not_found" = Some "not_found") eq_refl).
    rewrite (bool_decide_eq_true_2 (_ ∨ _)); [done|by left].
  - rewrite (bool_decide_eq_false_2 _ Hcode). cbn [check_ok reason].
    destruct (decide (errorMessage e = "not_found")) as [Hmsg|Hmsg].
    + rewrite (bool_decide_eq_true_2 (Some (errorMessage e) = Some "not_found"));
        [|by rewrite Hmsg].
      rewrite (bool_decide_eq_true_2 (_ ∨ _)); [done|by right].
    + rewrite (bool_decide_eq_false_2 (Some (errorMessage e) = Some "not_found"));
        [|by intros [= ?]].
      rewrite (bool_decide_eq_false_2 (_ ∨ _)); [done|tauto].
Qed.

Lemma preflightFfmpeg_start_error_witness :
  preflightFfmpeg (failsToStart "ENOENT" "spawnSync ffmpeg ENOENT")
  = {| ok := false; provider := "local"; dependency := ffmpeg;
       message :=
         if bool_decide
              (code {| code := Some "ENOENT";
                       errorMessage := "spawnSync ffmpeg ENOENT" |} = Some "ENOENT"
               ∨ errorMessage {| code := Some "ENOENT";
                                 errorMessage := "spawnSync ffmpeg ENOENT" |}
                 = "not_found")
         then "Local preflight failed: ffmpeg is not installed or not in PATH. Install ffmpeg and retry."
         else "Local preflight failed: ffmpeg check could not run ("
              +:+ "spawnSync ffmpeg ENOENT" +:+ ")." |}.
Proof.
  apply (preflightFfmpeg_start_error (failsToStart "ENOENT" "spawnSync ffmpeg ENOENT")
           {| code := Some "ENOENT"; errorMessage := "spawnSync ffmpeg ENOENT" |}).
  reflexivity.
Defined.

Lemma mentions_preflight (verdict rest : string) :
  includes "preflight" (toLowerCase (("Local preflight " +:+ verdict) +:+ rest)) = true.
Proof.
  change (("Local preflight " +:+ verdict) +:+ rest)
    with ("Local " +:+ "preflight" +:+ (" " +:+ verdict) +:+ rest).
  rewrite !toLowerCase_app.
  change (toLowerCase "preflight") with "preflight".
  apply includes_app.
Qed.

(** X21: the message of a local preflight result agrees with its verdict:
    it begins [Local preflight passed: ] when the check passed and [Local
    preflight failed: ] when it did not, for ffmpeg and for ngrok, whatever
    the runs returned.  So every such message contains [preflight] in lower
    case, the word the failure response of POST /call looks for. *)
Theorem preflight_message_verdict (spawnSync : Spawn) :
  let agrees := λ r : LocalDependencyPreflightResult,
    (∃ rest, message r
             = (if ok r then "Local preflight passed: "
                else "Local preflight failed: ") +:+ rest)
    ∧ includes "preflight" (toLowerCase (message r)) = true in
  agrees (preflightFfmpeg spawnSync) ∧ agrees (preflightNgrok spawnSync).
Proof.
  cbv zeta.
  assert (Hshape : ∀ r : LocalDependencyPreflightResult,
            (∃ rest, message r
                     = (if ok r then "Local preflight passed: "
                        else "Local preflight failed: ") +:+ rest) →
            (∃ rest, message r
                     = (if ok r then "Local preflight passed: "
                        else "Local preflight failed: ") +:+ rest)
            ∧ includes "preflight" (toLowerCase (message r)) = true).
  { intros r [rest Hrest]. split; [by exists rest|]. rewrite Hrest.
    destruct (ok r).
    - apply (mentions_preflight "passed: " rest).
    - apply (mentions_preflight "failed: " rest). }
  split; apply Hshape.
  - unfold preflightFfmpeg.
    destruct (check_ok (checkCommand spawnSync "ffmpeg" ["-version"])).
    + destruct (check_ok (checkFfmpegMp3Decode spawnSync)); cbn [negb ok message];
        eexists; reflexivity.
    + destruct (bool_decide _); cbn [ok message]; eexists; reflexivity.
  - unfold preflightNgrok.
    destruct (check_ok (checkCommand spawnSync "ngrok" ["version"]));
      [|destruct (bool_decide _)]; cbn [ok message]; eexists; reflexivity.
Qed.

Example ffmpeg_decode_failure :
  preflightFfmpeg (λ _ args _,
    if bool_decide (args = ["-version"])
    then {| error := None; status := Some 0%Z; stderr := None |}
    else {| error := None; status := Some 1%Z;
            stderr := Some "Invalid data found when processing input" |})
  = {| ok := false; provider := "local"; dependency := ffmpeg;
       message := "Local preflight failed: ffmpeg is installed but cannot decode MP3 (Invalid data found when processing input). Install a full ffmpeg build with MP3 decode support and retry." |}.
Proof. vm_compute. reflexivity. Qed.

Example local_preflight_runs :
  preflightFfmpeg (exits 0)
  = {| ok := true; provider := "local"; dependency := ffmpeg;
       message := "Local preflight passed: ffmpeg is available and MP3 decode works." |}
  ∧ preflightNgrok (exits 0)
    = {| ok := true; provider := "local"; dependency := ngrok;
         message := "Local preflight passed: ngrok is available." |}
  ∧ preflightNgrok (failsToStart "ENOENT" "spawnSync ngrok ENOENT")
    = {| ok := false; provider := "local"; dependency := ngrok;
         message := "Local preflight failed: ngrok is not installed or not in PATH. Install ngrok and retry." |}
  ∧ preflightNgrok (exits 3)
    = {| ok := false; provider := "local"; dependency := ngrok;
         message := "Local preflight failed: ngrok check could not run (exit_3)." |}.
Proof. repeat split; vm_compute; reflexivity. Qed.

End LocalDepsFacts.

(** * Phone numbers found in pages *)

Module ContactExtractorFacts.
Import ContactExtractor.

Lemma digitsOf_length (s : string) : (String.length (digitsOf s) ≤ String.length s)%nat.
Proof.
  induction s as [|c s IH]; [done|]. cbn [digitsOf].
  destruct (isDigit c); cbn [String.length]; lia.
Qed.

Lemma digitsOf_idem (s : string) : digitsOf (digitsOf s) = digitsOf s.
Proof.
  induction s as [|c s IH]; [done|]. cbn [digitsOf].
  destruct (isDigit c) eqn:Hc; [|done]. cbn [digitsOf]. by rewrite Hc, IH.
Qed.

Lemma allDigits_cons c (s : string) :
  allDigits (String c s) → isDigit c = true ∧ allDigits s.
Proof.
  unfold allDigits. cbn [digitsOf]. destruct (isDigit c) eqn:Hc.
  - by intros [= ?].
  - intros Heq. pose proof (digitsOf_length s) as Hlen.
    rewrite Heq in Hlen. cbn [String.length] in Hlen. lia.
Qed.

Lemma allDigits_sliceFrom n (s : string) : allDigits s → allDigits (sliceFrom n s).
Proof.
  revert s. induction n as [|n IH]; intros s Hs; [by destruct s|].
  destruct s as [|c s]; [done|]. cbn [sliceFrom].
  apply IH. by apply allDigits_cons in Hs as [_ ?].
Qed.

Lemma allDigits_no_plus (s : string) : allDigits s → String.prefix "+" s = false.
Proof.
  destruct s as [|c s]; [done|]. intros Hs. apply allDigits_cons in Hs as [Hc _].
  cbn [String.prefix]. destruct (Ascii.ascii_dec _ c) as [<-|]; [|done].
  by vm_compute in Hc.
Qed.

(** The digits [normalizePhone] keeps. *)
Lemma cleanDigits_allDigits (phone : string) :
  allDigits (if String.prefix "00" (digitsOf phone)
             then sliceFrom 2 (digitsOf phone) else digitsOf phone).
Proof.
  destruct (String.prefix "00" (digitsOf phone)).
  - apply allDigits_sliceFrom, digitsOf_idem.
  - apply digitsOf_idem.
Qed.

Lemma sliceFrom_prefix (s : string) :
  String.prefix "00" s = true → s = "00" +:+ sliceFrom 2 s.
Proof.
  destruct s as [|a [|b s]]; cbn [String.prefix]; try done.
  - by destruct (Ascii.ascii_dec _ a).
  - destruct (Ascii.ascii_dec _ a) as [<-|]; [|done].
    destruct (Ascii.ascii_dec _ b) as [<-|]; [|done]. done.
Qed.

(** X22: a normalised phone number is a string of digits, preceded by one
    [+] exactly when the text began with [+] or with [00]; its digits are
    the digits of the text, in order: all of them when they do not begin
    with [00], and all but that leading [00] (one pair, removed once) when
    they do. *)
Theorem normalizePhone_shape (phone : string) :
  ∃ digits,
    allDigits digits
    ∧ normalizePhone phone
      = (if String.prefix "+" phone || String.prefix "00" phone
         then "+" +:+ digits else digits)
    ∧ (String.prefix "00" (digitsOf phone) = true → digitsOf phone = "00" +:+ digits)
    ∧ (String.prefix "00" (digitsOf phone) = false → digitsOf phone = digits).
Proof.
  exists (if String.prefix "00" (digitsOf phone)
          then sliceFrom 2 (digitsOf phone) else digitsOf phone).
  split; [apply cleanDigits_allDigits|]. split; [reflexivity|].
  destruct (String.prefix "00" (digitsOf phone)) eqn:Hzero; split; try done.
  intros _. by apply sliceFrom_prefix.
Qed.

(** X23: normalising twice is normalising once, provided the digits of the
    normalised number do not begin with [00]. *)
Theorem normalizePhone_stable (phone : string) :
  String.prefix "00" (digitsOf (normalizePhone phone)) = false →
  normalizePhone (normalizePhone phone) = normalizePhone phone.
Proof.
  unfold normalizePhone at 1 3 4.
  pose proof (cleanDigits_allDigits phone) as Hclean.
  set (clean := if String.prefix "00" (digitsOf phone)
                then sliceFrom 2 (digitsOf phone) else digitsOf phone) in *.
  destruct (String.prefix "+" phone || String.prefix "00" phone).
  - assert (Hdigits : digitsOf ("+" +:+ clean) = clean) by exact Hclean.
    rewrite Hdigits. intros Hzero. unfold normalizePhone.
    rewrite Hdigits, Hzero. by destruct clean.
  - rewrite Hclean. intros Hzero. unfold normalizePhone.
    rewrite Hclean, Hzero, (allDigits_no_plus _ Hclean). done.
Qed.

Lemma normalizePhone_stable_witness :
  normalizePhone (normalizePhone "+1 (555) 123-4567")
  = normalizePhone "+1 (555) 123-4567".
Proof. apply (normalizePhone_stable "+1 (555) 123-4567"). reflexivity. Defined.

Example normalizePhone_runs :
  normalizePhone "+1 (555) 123-4567" = "+15551234567"
  ∧ normalizePhone "0034 612 345 678" = "+34612345678"
  ∧ normalizePhone "(555) 987-6543" = "5559876543"
  ∧ normalizePhone "0000123" = "+00123"
  ∧ normalizePhone "+00123" = "+123".
Proof. repeat split; reflexivity. Qed.

Lemma allEqual_repeated c n : allEqual c (repeated c n) = true.
Proof.
  induction n as [|n IH]; [done|]. cbn [repeated allEqual].
  by rewrite Ascii.eqb_refl, IH.
Qed.

(** X24: a text is taken not to be a phone number when it has no digit at
    all, and when its digits are one digit written two times or more,
    whatever separates them. *)
Theorem isLikelyNotPhone_degenerate (phone : string) :
  (digitsOf phone = "" → isLikelyNotPhone phone = true)
  ∧ (∀ c n, digitsOf phone = repeated c (S (S n)) → isLikelyNotPhone phone = true).
Proof.
  unfold isLikelyNotPhone. split.
  - intros ->. reflexivity.
  - intros c n ->. cbn [repeated oneCharRepeated].
    by rewrite Ascii.eqb_refl, allEqual_repeated.
Qed.

Example isLikelyNotPhone_runs :
  isLikelyNotPhone "111-111-1111" = true
  ∧ isLikelyNotPhone "123 456 7890" = true
  ∧ isLikelyNotPhone "call us" = true
  ∧ isLikelyNotPhone "2024" = true
  ∧ isLikelyNotPhone "+1 555 123 4567" = false.
Proof. repeat split; reflexivity. Qed.

End ContactExtractorFacts.
